(** * svc-rpc: the JSON-RPC request pipeline of [handleRpcs]

    A shallow embedding of the request pipeline of svc-rpc (the [micro]
    middleware [handleRpcs], the validation-error flattener
    [_makeHashOutOfValidateErrors] and the schema composer
    [_resolveAndCombineAllOfs]) and the properties its specification states
    about them.

    JavaScript objects are finite maps from property names to values
    ([gmap string _]); [undefined] is [None] of an [option].  The libraries
    the code calls (tv4, micro's [json], serialize-error, and the regular
    expressions inside lodash's path parser) are the fields of the classes
    [Lodash], [Tv4] and [Host], so every theorem holds for whatever they
    compute; [handleRpcs] is the middleware once the method modules have
    been loaded into the registry object [methods]. *)

From stdpp Require Import gmap strings list fin_maps pretty.
From Stdlib Require Import ZArith Ascii String.

Set Warnings "-register-all".

Local Open Scope string_scope.
Local Open Scope Z_scope.

(** ** JavaScript values *)

(** An object is a plain object or an array; an array is an object whose
    properties are its indices (lodash's [set] creates arrays for index-like
    path segments, and may leave holes in them).  Numbers are integers: the
    code never computes with a number, it only tests one for truthiness. *)
Inductive objclass := PlainObject | ArrayObject.

Inductive json :=
| JNull
| JBool (b : bool)
| JNum (n : Z)
| JStr (s : string)
| JObj (c : objclass) (m : gmap string json).

(** [{}] *)
Definition emptyObject : json := JObj PlainObject ∅.

(** JavaScript truthiness, as used by [||] and [!] *)
Definition truthy (v : option json) : bool :=
  match v with
  | None | Some JNull | Some (JBool false) => false
  | Some (JNum n) => negb (n =? 0)
  | Some (JStr s) => negb (String.eqb s "")
  | Some (JBool true) | Some (JObj _ _) => true
  end.

(** The property names every plain object inherits from [Object.prototype];
    [obj[name]] is a function (or, for [__proto__], the prototype object) for
    each of them even when [obj] has no such property of its own. *)
Definition Object_prototype_keys : list string :=
  [ "constructor"; "__defineGetter__"; "__defineSetter__"; "hasOwnProperty";
    "__lookupGetter__"; "__lookupSetter__"; "isPrototypeOf";
    "propertyIsEnumerable"; "toString"; "valueOf"; "__proto__";
    "toLocaleString" ].

Definition Object_prototype_has (name : string) : bool :=
  existsb (String.eqb name) Object_prototype_keys.

(** ** Strings *)

Fixpoint string_forallb (p : ascii -> bool) (s : string) : bool :=
  match s with
  | EmptyString => true
  | String a s' => p a && string_forallb p s'
  end.

Fixpoint string_map (f : ascii -> ascii) (s : string) : string :=
  match s with
  | EmptyString => EmptyString
  | String a s' => String (f a) (string_map f s')
  end.

Fixpoint is_prefix (p s : string) : bool :=
  match p, s with
  | EmptyString, _ => true
  | String a p', String b s' => Ascii.eqb a b && is_prefix p' s'
  | String _ _, EmptyString => false
  end.

(** [contains needle s]: [needle] occurs somewhere in [s]; this is
    [/needle/.test(s)] for a pattern without metacharacters. *)
Fixpoint contains (needle s : string) : bool :=
  is_prefix needle s ||
  match s with
  | EmptyString => false
  | String _ s' => contains needle s'
  end.

(** [s.substring(1)] *)
Definition substring1 (s : string) : string :=
  match s with
  | EmptyString => EmptyString
  | String _ s' => s'
  end.

(** [s.replace(/\//g, '.')] *)
Definition slashes_to_dots (s : string) : string :=
  string_map (fun a => if Ascii.eqb a "/"%char then "."%char else a) s.

Definition is_digit (a : ascii) : bool :=
  let n := nat_of_ascii a in (48 <=? n)%nat && (n <=? 57)%nat.

(** JavaScript's [\w] *)
Definition is_word_char (a : ascii) : bool :=
  let n := nat_of_ascii a in
  is_digit a || ((65 <=? n)%nat && (n <=? 90)%nat)
  || ((97 <=? n)%nat && (n <=? 122)%nat) || (n =? 95)%nat.

Fixpoint digits_value (acc : Z) (s : string) : Z :=
  match s with
  | EmptyString => acc
  | String a s' => digits_value (10 * acc + Z.of_nat (nat_of_ascii a) - 48) s'
  end.

(** ** lodash: [set] with a path

    [set(object, path, value)] assigns [value] at [path], creating the
    objects (arrays before an index-like segment) that are missing on the
    way; it replaces whatever is not an object on the way, and it assigns
    nothing at the keys [__proto__], [constructor] and [prototype].  Of lodash's
    regular expressions over paths, [reIsPlainProp] is modelled; the
    deep-path test [reIsDeepProp] and the parser [stringToPath] behind it are
    fields of the class [Lodash]. *)

(** lodash's [reIsPlainProp]: word characters only *)
Definition reIsPlainProp (s : string) : bool := string_forallb is_word_char s.

Definition MAX_SAFE_INTEGER : Z := 9007199254740991.

(** [isIndex]: a decimal numeral without a leading zero (lodash's
    [reIsUint]) whose value is below [MAX_SAFE_INTEGER] *)
Definition isIndex (s : string) : bool :=
  match s with
  | EmptyString => false
  | String a s' =>
      (String.eqb s "0"
       || (is_digit a && negb (Ascii.eqb a "0"%char) && string_forallb is_digit s'))
      && (digits_value 0 s <? MAX_SAFE_INTEGER)
  end.

(** [toKey]: the property name a path segment denotes; [undefined] denotes
    the name ["undefined"]. *)
Definition toKey (value : option string) : string :=
  match value with
  | None => "undefined"
  | Some s => s
  end.

(** The keys [baseSet] refuses: at a segment [__proto__], [constructor] or
    [prototype] it returns the object at once, with whatever the segments
    before it have assigned. *)
Definition unsafeKey (key : string) : bool :=
  String.eqb key "__proto__" || String.eqb key "constructor"
  || String.eqb key "prototype".

(** [baseSet] along a path already cast to segments.  The last segment is
    assigned [value].  A segment before it is read with [nested[key]]: an
    object stays, and anything else that is there, or nothing, is replaced by
    a fresh array when the next segment is index-like and by a fresh object
    otherwise.  When the object has no such property of its own but
    [Object.prototype] has, [nested[key]] is that built-in function: lodash
    assigns the function to the segment and goes on inside the function
    object, so that the message does not reach the object; a property that
    holds a function is no JSON data (and none in what [JSON.stringify]
    gives), and the object is returned as it is.  For an array on the way,
    its indices and the properties assigned to it are modelled, its [length]
    and the members of [Array.prototype] are not. *)
Fixpoint baseSet (object : gmap string json) (path : list string) (value : json)
  : gmap string json :=
  match path with
  | [] => object
  | k :: rest =>
      if unsafeKey k then object
      else
        match rest with
        | [] => <[k := value]> object
        | k' :: _ =>
            let fresh := if isIndex k' then ArrayObject else PlainObject in
            match object !! k with
            | Some (JObj c nested) =>
                <[k := JObj c (baseSet nested rest value)]> object
            | Some _ => <[k := JObj fresh (baseSet ∅ rest value)]> object
            | None =>
                if Object_prototype_has k then object
                else <[k := JObj fresh (baseSet ∅ rest value)]> object
            end
        end
  end.

(** lodash's [reIsDeepProp.test] and [stringToPath] *)
Class Lodash := {
  reIsDeepProp : string -> bool;
  stringToPath : string -> list string
}.

(** [key in Object(object)] *)
Definition js_in (k : string) (object : gmap string json) : bool :=
  bool_decide (is_Some (object !! k)) || Object_prototype_has k.

Definition isKey `{Lodash} (value : option string) (object : gmap string json)
  : bool :=
  match value with
  | None => true
  | Some s => reIsPlainProp s || negb (reIsDeepProp s) || js_in s object
  end.

(** [castPath]; the segments are returned as property names, that is with
    [toKey] already applied. *)
Definition castPath `{Lodash} (value : option string) (object : gmap string json)
  : list string :=
  if isKey value object then [toKey value] else stringToPath (toKey value).

(** [set(object, path, value)] for a string (or undefined) [path] *)
Definition set `{Lodash} (object : gmap string json) (path : option string)
  (value : json) : gmap string json :=
  baseSet object (castPath path object) value.

(** ** The validation-error flattener *)

(** tv4's [ValidationError.params]; the flattener reads [params.key] only. *)
Record ErrorParams := { key : option string }.

(** tv4's [ValidationError].  [subErrors] is absent ([null]) or an array. *)
Inductive ValidationError := mkValidationError {
  message : string;
  params : ErrorParams;
  dataPath : string;
  schemaPath : string;
  subErrors : option (list ValidationError)
}.

(** The [path] constant of [_makeHashOutOfValidateErrors]:
    [params.key] when [/required/] matches [schemaPath], and otherwise
    [dataPath.substring(1).replace(/\//g, '.')]. *)
Definition errorPath (validateError : ValidationError) : option string :=
  if contains "required" (schemaPath validateError)
  then key (params validateError)
  else Some (slashes_to_dots (substring1 (dataPath validateError))).

(** The assignment [set(__accumulatedErrors, path, validateError.message)] *)
Definition setError `{Lodash} (accumulatedErrors : gmap string json)
  (validateError : ValidationError) : gmap string json :=
  set accumulatedErrors (errorPath validateError) (JStr (message validateError)).

Fixpoint _makeHashOutOfValidateErrors `{Lodash}
  (accumulatedErrors : gmap string json) (validateError : ValidationError)
  {struct validateError} : gmap string json :=
  let __accumulatedErrors := setError accumulatedErrors validateError in
  match subErrors validateError with
  | None => __accumulatedErrors
  | Some subs => fold_left _makeHashOutOfValidateErrors subs __accumulatedErrors
  end.

(** The nodes of an error tree in depth-first order, a node before its
    [subErrors], these in their declared order. *)
Fixpoint preorder (e : ValidationError) : list ValidationError :=
  e :: match subErrors e with
       | None => []
       | Some subs => flat_map preorder subs
       end.



(** The path of the node is a single property name whatever the object it
    is set on: it is undefined, or a string [isKey] accepts because it is a
    plain name or has no deep-path syntax. *)
Definition directKey `{Lodash} (e : ValidationError) : bool :=
  match errorPath e with
  | None => true
  | Some s => reIsPlainProp s || negb (reIsDeepProp s)
  end.



(** Induction on error trees, with the property available for every entry
    of [subErrors]. *)
Section ValidationError_induction.
Variable P : ValidationError -> Prop.
Hypothesis Hnode : forall m p d s subs,
  match subs with None => True | Some l => Forall P l end ->
  P (mkValidationError m p d s subs).

Fixpoint ValidationError_nested_ind (e : ValidationError) : P e :=
  match e with
  | mkValidationError m p d s subs =>
      Hnode m p d s subs
        match subs with
        | None => I
        | Some l =>
            (fix all (l : list ValidationError) : Forall P l :=
               match l with
               | [] => @List.Forall_nil _ P
               | x :: t => @List.Forall_cons _ P x t (ValidationError_nested_ind x) (all t)
               end) l
        end
  end.
End ValidationError_induction.

(** ** Faults and outcomes *)

(** What a JavaScript [throw] carries, apart from [RpcError]: the built-in
    errors the pipeline itself can raise, and whatever a handler or a
    library raises. *)
Inductive Fault :=
| TypeError (msg : string)
| OtherError (name msg : string).

(** [class RpcError extends Error]: [data], [message] and [code]. *)
Record RpcError := mkRpcError {
  err_data : json;
  err_message : string;
  err_code : Z
}.

Inductive Thrown :=
| ThrowRpcError (err : RpcError)
| ThrowFault (err : Fault).

(** The outcome of running a piece of the code: it returns, it throws, or
    the recursion bound of the model was too small to tell. *)
Inductive Outcome (A : Type) :=
| Return (a : A)
| Throw (t : Thrown)
| OutOfFuel.
Arguments Return {A} a.
Arguments Throw {A} t.
Arguments OutOfFuel {A}.

#[global] Instance Outcome_bind : MBind Outcome := fun A B f m =>
  match m with
  | Return a => f a
  | Throw t => Throw t
  | OutOfFuel => OutOfFuel
  end.

(** [xs.reduce(f, init)] for a callback that may throw *)
Fixpoint reduceM {A B} (f : B -> A -> Outcome B) (xs : list A) (init : B)
  : Outcome B :=
  match xs with
  | [] => Return init
  | x :: xs' => prev ← f init x; reduceM f xs' prev
  end.

(** ** Schemas and the schema composer *)

(** A property's schema; default injection reads its [default] only. *)
Record PropertySchema := { default : option json }.

(** An entry of [allOf]; the composer reads its [$ref] only. *)
Record AllOfEntry := { ref : option string }.

(** A schema document: its [allOf] and [properties], and the keywords only
    the validator reads. *)
Record Schema := mkSchema {
  allOf : option (list AllOfEntry);
  properties : option (gmap string PropertySchema);
  keywords : gmap string json
}.

(** tv4, as the code uses it: [validateResult(data, schema)] gives the error
    of an invalid [data] (and nothing for a valid one), [getSchema(name)] the
    schema registered under [name]. *)
Class Tv4 := {
  validateResult : json -> Schema -> option ValidationError;
  getSchema : string -> option Schema
}.

(** [properties || {}] *)
Definition orEmpty (props : option (gmap string PropertySchema))
  : gmap string PropertySchema :=
  match props with
  | None => ∅
  | Some p => p
  end.

(** [Object.assign({}, prev, properties)]: the properties of the second
    source win. *)
Definition assignProperties (prev : gmap string PropertySchema)
  (props : option (gmap string PropertySchema)) : gmap string PropertySchema :=
  match props with
  | None => prev
  | Some p => p ∪ prev
  end.

(** The callback of the [reduce] over [allOf], given the function that
    resolves the schema referred to: look the reference up, resolve it, and
    assign its properties over [prev]. *)
Definition combineRef `{Tv4} (resolve : Schema -> Outcome Schema)
  (prev : gmap string PropertySchema) (curr : AllOfEntry)
  : Outcome (gmap string PropertySchema) :=
  match getSchema (toKey (ref curr)) with
  | None =>
      Throw (ThrowFault (TypeError "Cannot read property 'allOf' of undefined"))
  | Some schemaOfRef =>
      resolvedSchemaOfRef ← resolve schemaOfRef;
      Return (assignProperties prev (properties resolvedSchemaOfRef))
  end.

Fixpoint _resolveAndCombineAllOfs `{Tv4} (fuel : nat) (schema : Schema)
  : Outcome Schema :=
  match allOf schema with
  | None => Return schema
  | Some refs =>
      match fuel with
      | O => OutOfFuel
      | S fuel' =>
          combinedProperties ←
            reduceM (combineRef (_resolveAndCombineAllOfs fuel')) refs
              (orEmpty (properties schema));
          Return (mkSchema (allOf schema) (Some combinedProperties) (keywords schema))
      end
  end.

(** ** The request pipeline *)

(** The inbound request: [req.headers['content-type']] and the raw body. *)
Record Request := {
  contentType : option string;
  body : string
}.

(** The request a handler is called with: [req] after [req.method] and
    [req.id] were assigned. *)
Record RequestContext := {
  req : Request;
  req_method : option json;
  req_id : option json
}.

(** What a handler call comes to: a value ([undefined] included) or a throw. *)
Inductive HandlerResult :=
| Returned (result : option json)
| Raised (t : Thrown).

(** A method module: the exported function and its [paramsSchema]. *)
Record MethodModule := {
  handler : option json -> RequestContext -> HandlerResult;
  paramsSchema : option Schema
}.

(** The host of the pipeline: micro's [json(req)], [serialize-error],
    [process.env.NODE_ENV], the envelope schema, and the parts of the
    JavaScript runtime the code leans on. *)
Class Host := {
  micro_json : string -> Fault + json;
  serializeError : Fault -> json;
  NODE_ENV : option string;
  (** the module [./request.schema] *)
  requestSchema : Schema;
  (** [String(v)] for a value that is not a string, as a property name *)
  ToString : json -> string;
  (** [Object.keys(o)]: the property names of [o], in JavaScript's order *)
  Object_keys : gmap string PropertySchema -> list string;
  Object_keys_perm : forall o, Object_keys o ≡ₚ (map_to_list o).*1;
  (** [v[k] !== undefined] for a built-in member [k] (length, an index of a
      string, a method of [Array.prototype] or [String.prototype], ...) of an
      array or a primitive [v] *)
  builtin_has : json -> string -> bool;
  (** calling a member inherited from [Object.prototype] as a method of the
      registry object, for the members other than [toString] *)
  builtin_call : string -> option json -> RequestContext -> HandlerResult
}.

Definition production `{Host} : bool :=
  match NODE_ENV with
  | Some env => String.eqb env "production"
  | None => false
  end.

(** The response body: [{jsonrpc: '2.0', result, id}] or
    [{jsonrpc: '2.0', error: {code, message, data}, id}]. *)
Inductive Response :=
| Success (result : option json) (id : option json)
| Failure (code : Z) (message : string) (data : json) (id : option json).

(** What the middleware does with a request. *)
Inductive PipelineResult :=
| PassThrough                 (* [fn(req, res, ...args)] answers *)
| Respond (r : Response)
| Escapes (err : Fault)       (* thrown out of the [catch] block *)
| NoFuel.

(** The effects the claims are about. *)
Inductive Event :=
| ConsoleError (error : json)
| Dispatch (method : string) (params : option json).

(** [js[k]] for a parsed body [js] and a name [k] that no built-in prototype
    defines ([id], [method], [params]): reading from [null] throws, reading
    from an array or a primitive gives [undefined]. *)
Definition js_read (js : json) (k : string) : Outcome (option json) :=
  match js with
  | JNull => Throw (ThrowFault (TypeError "Cannot read property of null"))
  | JObj _ m => Return (m !! k)
  | _ => Return None
  end.

(** The property name a value used as a key denotes. *)
Definition toPropertyKey `{Host} (v : option json) : string :=
  match v with
  | None => "undefined"
  | Some (JStr s) => s
  | Some v => ToString v
  end.

(** A member of the registry object [methods]: a loaded module, or what
    [Object.prototype] provides under that name. *)
Inductive Member :=
| Own (module : MethodModule)
| Inherited (name : string).

(** [methods[name]] *)
Definition methods_get (methods : gmap string MethodModule) (name : string)
  : option Member :=
  match methods !! name with
  | Some module => Some (Own module)
  | None => if Object_prototype_has name then Some (Inherited name) else None
  end.

(** [member.paramsSchema] *)
Definition member_paramsSchema (member : Member) : option Schema :=
  match member with
  | Own module => paramsSchema module
  | Inherited _ => None
  end.

(** [methods[js.method](js.params, req, res)] *)
Definition member_call `{Host} (member : Member) (params : option json)
  (ctx : RequestContext) : HandlerResult :=
  match member with
  | Own module => handler module params ctx
  | Inherited name =>
      if String.eqb name "toString" then Returned (Some (JStr "[object Object]"))
      else if String.eqb name "__proto__"
           then Raised (ThrowFault (TypeError "methods[js.method] is not a function"))
           else builtin_call name params ctx
  end.

(** [dontDefault.indexOf(js.method) === -1] *)
Definition notListed (dontDefault : list string) (method : option json) : bool :=
  match method with
  | Some (JStr name) => negb (bool_decide (name ∈ dontDefault))
  | _ => true
  end.

(** [v[k] !== undefined] for a value [v] that is neither [null] nor
    [undefined] *)
Definition js_has `{Host} (v : json) (k : string) : bool :=
  match v with
  | JObj PlainObject m => bool_decide (is_Some (m !! k)) || Object_prototype_has k
  | JObj ArrayObject m =>
      bool_decide (is_Some (m !! k)) || Object_prototype_has k || builtin_has v k
  | _ => Object_prototype_has k || builtin_has v k
  end.

(** [get(js, ['params', property]) !== undefined] *)
Definition hasParam `{Host} (js : json) (property : string) : bool :=
  match js with
  | JObj _ m =>
      match m !! "params" with
      | None | Some JNull => false
      | Some v => js_has v property
      end
  | _ => false
  end.

(** [set(js, ['params', property], value)] *)
Definition setParam (js : json) (property : string) (value : json) : json :=
  match js with
  | JObj c m => JObj c (baseSet m ["params"; property] value)
  | _ => js
  end.

(** The callback of the [forEach] of default injection. *)
Definition defaultProperty `{Host} (props : gmap string PropertySchema)
  (js : json) (property : string) : json :=
  match props !! property with
  | None => js
  | Some propertySchema =>
      match default propertySchema with
      | None => js
      | Some value => if hasParam js property then js else setParam js property value
      end
  end.

(** Default injection: the [forEach] over
    [Object.keys(combinedSchema.properties || {})]. *)
Definition defaultParams `{Host} (combinedSchema : Schema) (js : json) : json :=
  let props := orEmpty (properties combinedSchema) in
  fold_left (defaultProperty props) (Object_keys props) js.

(** [js.params || {}] *)
Definition paramsOrEmpty (params : option json) : json :=
  match params with
  | Some v => if truthy params then v else emptyObject
  | None => emptyObject
  end.

(** [js[k]] for a parsed body [js] that is not [null] and a name [k] that no
    built-in prototype defines. *)
Definition js_field (js : json) (k : string) : option json :=
  match js with
  | JObj _ m => m !! k
  | _ => None
  end.

(** The default-params step: skipped for a member without [paramsSchema]
    and for a method listed in [dontDefault]. *)
Definition defaultStep `{Tv4} `{Host} (fuel : nat) (member : Member)
  (dontDefault : list string) (method : option json) (js : json) : Outcome json :=
  match member_paramsSchema member with
  | Some schema =>
      if notListed dontDefault method
      then combinedSchema ← _resolveAndCombineAllOfs fuel schema;
           Return (defaultParams combinedSchema js)
      else Return js
  | None => Return js
  end.

(** The validate-params step: [tv4.validateResult(js.params || {},
    paramsSchema)], skipped for a member without [paramsSchema]. *)
Definition validateParams `{Tv4} (member : Member) (js : json)
  : option ValidationError :=
  match member_paramsSchema member with
  | Some schema => validateResult (paramsOrEmpty (js_field js "params")) schema
  | None => None
  end.

(** The body of the [try] block once the body has been parsed into [js]:
    the events so far, [js] as the block leaves it, and the value the block
    returns or the error it throws. *)
Definition tryBlock `{Lodash} `{Tv4} `{Host} (fuel : nat)
  (methods : gmap string MethodModule) (dontDefault : list string)
  (request : Request) (js : json) : list Event * json * Outcome (option json) :=
  match validateResult js requestSchema with
  | Some error =>
      ([], js,
       Throw (ThrowRpcError
                (mkRpcError (JObj PlainObject (_makeHashOutOfValidateErrors ∅ error))
                            "Invalid request" (-32600))))
  | None =>
  match js_read js "method" with
  | OutOfFuel => ([], js, OutOfFuel)
  | Throw t => ([], js, Throw t)
  | Return method =>
  match methods_get methods (toPropertyKey method) with
  | None =>
      ([], js, Throw (ThrowRpcError (mkRpcError JNull "Method not found" (-32601))))
  | Some member =>
  match defaultStep fuel member dontDefault method js with
  | OutOfFuel => ([], js, OutOfFuel)
  | Throw t => ([], js, Throw t)
  | Return js' =>
  match validateParams member js' with
  | Some error =>
      ([], js',
       Throw (ThrowRpcError
                (mkRpcError (JObj PlainObject (_makeHashOutOfValidateErrors ∅ error))
                            "Invalid params" (-32602))))
  | None =>
  let params := js_field js' "params" in
  let ctx := {| req := request; req_method := method; req_id := js_field js' "id" |} in
  ([Dispatch (toPropertyKey method) params], js',
   match member_call member params ctx with
   | Returned result => Return result
   | Raised t => Throw t
   end)
  end end end end end.

(** The [catch] block and the final [return]: the response for what the
    [try] block came to, with [js.id] read from [js] as the block left it. *)
Definition respond `{Host} (events : list Event) (js : json)
  (outcome : Outcome (option json)) : list Event * PipelineResult :=
  match outcome with
  | OutOfFuel => (events, NoFuel)
  | Return result =>
      match js_read js "id" with
      | Return id => (events, Respond (Success result id))
      | _ => (events, Escapes (TypeError "Cannot read property 'id' of null"))
      end
  | Throw (ThrowRpcError err) =>
      match js_read js "id" with
      | Return id =>
          (events, Respond (Failure (err_code err) (err_message err) (err_data err) id))
      | _ => (events, Escapes (TypeError "Cannot read property 'id' of null"))
      end
  | Throw (ThrowFault err) =>
      let events' :=
        if production then (events ++ [ConsoleError (serializeError err)])%list
        else events in
      let data := if production then JBool false else serializeError err in
      match js_read js "id" with
      | Return id => (events', Respond (Failure (-32603) "Internal error" data id))
      | _ => (events', Escapes (TypeError "Cannot read property 'id' of null"))
      end
  end.

(** The middleware [handleRpcs(rpcDir, {dontDefault})(fn)] on one request,
    for the registry [methods] loaded from [rpcDir]. *)
Definition handleRpcs `{Lodash} `{Tv4} `{Host} (fuel : nat)
  (methods : gmap string MethodModule) (dontDefault : list string)
  (request : Request) : list Event * PipelineResult :=
  if negb (bool_decide (contentType request = Some "application/json"))
  then ([], PassThrough)
  else
    match micro_json (body request) with
    | inl err =>
        respond [] (JObj PlainObject {[ "id" := JNull ]})
          (Throw (ThrowRpcError
                    (mkRpcError (serializeError err) "Parse error" (-32700))))
    | inr js =>
        let '(events, js', outcome) := tryBlock fuel methods dontDefault request js in
        respond events js' outcome
    end.

(** ** Vocabulary of the properties *)


(** How many times a handler was called. *)
Fixpoint dispatches (events : list Event) : nat :=
  match events with
  | [] => O
  | Dispatch _ _ :: events' => S (dispatches events')
  | ConsoleError _ :: events' => dispatches events'
  end.

(** The request passes every check of the pipeline: the body parses to
    [js], the envelope is valid, [methods[js.method]] is [member], the
    default-params step leaves [js'], and the parameters are valid. *)
Definition accepted `{Tv4} `{Host} (fuel : nat) (methods : gmap string MethodModule)
  (dontDefault : list string) (request : Request) (js : json) (member : Member)
  (js' : json) : Prop :=
  contentType request = Some "application/json"
  /\ micro_json (body request) = inr js
  /\ js <> JNull
  /\ validateResult js requestSchema = None
  /\ methods_get methods (toPropertyKey (js_field js "method")) = Some member
  /\ defaultStep fuel member dontDefault (js_field js "method") js = Return js'
  /\ validateParams member js' = None.

(** The call the pipeline makes for an accepted request. *)
Definition dispatchCall `{Host} (request : Request) (js : json) (member : Member)
  (js' : json) : HandlerResult :=
  member_call member (js_field js' "params")
    {| req := request; req_method := js_field js "method";
       req_id := js_field js' "id" |}.

(** The references of a schema can be resolved within [depth] levels of
    recursion: every schema [allOf] refers to is registered, and its own
    references can be resolved within one level less. *)
Fixpoint resolvable `{Tv4} (depth : nat) (schema : Schema) : Prop :=
  match allOf schema with
  | None => True
  | Some refs =>
      match depth with
      | O => False
      | S depth' =>
          Forall (fun curr =>
                    match getSchema (toKey (ref curr)) with
                    | None => False
                    | Some schemaOfRef => resolvable depth' schemaOfRef
                    end) refs
      end
  end.

(** [Object.assign] of the properties of the resolved references, in their
    declared order, over [init]. *)
Definition combineProperties (resolved : list Schema)
  (init : gmap string PropertySchema) : gmap string PropertySchema :=
  fold_left (fun prev r => assignProperties prev (properties r)) resolved init.

(** What the last of the [resolved] schemas that declares the property [k]
    declares for it. *)
Definition lastDeclaring (k : string) (resolved : list Schema)
  : option PropertySchema :=
  fold_left (fun found r =>
               match orEmpty (properties r) !! k with
               | Some ps => Some ps
               | None => found
               end) resolved None.

(** [js'] is [js] up to its [params]. *)
Definition keepsEnvelope (js js' : json) : Prop :=
  (js <> JNull -> js' <> JNull)
  /\ forall k, k <> "params" -> js_field js' k = js_field js k.

(** The reference of [curr] is registered and resolves to [r] with any
    recursion bound from [depth] on. *)
Definition resolvesTo `{Tv4} (depth : nat) (curr : AllOfEntry) (r : Schema) : Prop :=
  exists schemaOfRef,
    getSchema (toKey (ref curr)) = Some schemaOfRef
    /\ forall fuel, (depth <= fuel)%nat ->
                    _resolveAndCombineAllOfs fuel schemaOfRef = Return r.

(** The defaults a [properties] mapping declares, by property name. *)
Definition defaultsOf (props : gmap string PropertySchema) : gmap string json :=
  omap default props.

(** The declared defaults of the names in [keys]. *)
Fixpoint defaultsAmong (defaults : gmap string json) (keys : list string)
  : gmap string json :=
  match keys with
  | [] => ∅
  | p :: keys' =>
      match defaults !! p with
      | Some d => <[p := d]> (defaultsAmong defaults keys')
      | None => defaultsAmong defaults keys'
      end
  end.

(** What default injection may turn the properties [pm] of [params] into:
    nothing is removed or changed, and what is added is a declared default. *)
Definition extendsWithDefaults (props : gmap string PropertySchema)
  (pm pm' : gmap string json) : Prop :=
  pm ⊆ pm'
  /\ forall k v, pm' !! k = Some v ->
                 pm !! k = Some v \/ defaultsOf props !! k = Some v.

(** * A sample service

    A small configuration on which the pipeline can be run: the method
    [greet] of the specification's scenarios, whose parameter [name] is a
    string with default ["world"], and stand-ins for the libraries. *)

(** [s.split('.')] *)
Fixpoint splitDots (cur : string) (s : string) : list string :=
  match s with
  | EmptyString => [cur]
  | String a s' =>
      if Ascii.eqb a "."%char then cur :: splitDots EmptyString s'
      else splitDots (cur ++ String a EmptyString)%string s'
  end.

(** lodash on paths without brackets: such a path is deep exactly when it
    has a dot, and it parses into the segments between its dots. *)
Definition bracketFreeLodash : Lodash := {|
  reIsDeepProp s := contains "." s;
  stringToPath s := splitDots EmptyString s
|}.

Definition requiredError (name : string) : ValidationError :=
  mkValidationError (name ++ " is required")%string {| key := Some name |}
    "" "/required/0" None.

Definition typeError (name : string) : ValidationError :=
  mkValidationError "Invalid type: number (expected string)" {| key := None |}
    ("/" ++ name)%string ("/properties/" ++ name ++ "/type")%string None.

(** A validator for the sample schemas, which declare at most one required
    property (keyword [required]) and one string property (keyword
    [string]); it reports what tv4 reports for them. *)
Definition sampleValidateResult (data : json) (schema : Schema)
  : option ValidationError :=
  let field k := match data with JObj _ m => m !! k | _ => None end in
  match keywords schema !! "required" with
  | Some (JStr name) =>
      match field name with
      | None => Some (requiredError name)
      | Some _ => None
      end
  | _ =>
      match keywords schema !! "string" with
      | Some (JStr name) =>
          match field name with
          | Some (JStr _) | None => None
          | Some _ => Some (typeError name)
          end
      | _ => None
      end
  end.

Definition nameDefault (value : string) : PropertySchema :=
  {| default := Some (JStr value) |}.

(** [{properties: {name: {type: 'string', default: 'world'}}}] *)
Definition greetSchema : Schema :=
  mkSchema None (Some {[ "name" := nameDefault "world" ]})
    {[ "string" := JStr "name" ]}.

(** A base schema and a schema derived from it through [allOf], both
    declaring [name] with a default of their own. *)
Definition baseSchema : Schema :=
  mkSchema None
    (Some {[ "name" := nameDefault "base"; "lang" := nameDefault "en" ]}) ∅.

Definition derivedSchema : Schema :=
  mkSchema (Some [ {| ref := Some "base" |} ])
    (Some {[ "name" := nameDefault "own" ]}) ∅.

(** A schema that refers to itself. *)
Definition cyclicSchema : Schema :=
  mkSchema (Some [ {| ref := Some "cyclic" |} ]) None ∅.

(** A schema with a defaulted property named like a member of
    [Object.prototype]. *)
Definition toStringSchema : Schema :=
  mkSchema None (Some {[ "toString" := nameDefault "x" ]}) ∅.

(** A schema with two of them, [valueOf] declared first. *)
Definition inheritedNamesSchema : Schema :=
  mkSchema None
    (Some {[ "valueOf" := nameDefault "y"; "toString" := nameDefault "x" ]}) ∅.

Definition sampleSchemas : gmap string Schema :=
  {[ "greet" := greetSchema; "base" := baseSchema; "derived" := derivedSchema;
     "cyclic" := cyclicSchema; "render" := toStringSchema;
     "inspect" := inheritedNamesSchema ]}.

Definition sampleTv4 : Tv4 := {|
  validateResult := sampleValidateResult;
  getSchema name := sampleSchemas !! name
|}.

(** [greet]: ['hello ' + params.name]; it throws an [RpcError] for the name
    ["nobody"] and a plain error for the name ["crash"]. *)
Definition greet (params : option json) (ctx : RequestContext) : HandlerResult :=
  match params with
  | Some (JObj _ m) =>
      match m !! "name" with
      | Some (JStr "nobody") =>
          Raised (ThrowRpcError (mkRpcError (JStr "nobody") "No such user" 404))
      | Some (JStr "crash") => Raised (ThrowFault (OtherError "Error" "boom"))
      | Some (JStr name) => Returned (Some (JStr ("hello " ++ name)))
      | _ => Returned (Some (JStr "hello undefined"))
      end
  | _ => Raised (ThrowFault (TypeError "Cannot read property 'name' of undefined"))
  end.

Definition greetModule : MethodModule :=
  {| handler := greet; paramsSchema := Some greetSchema |}.

Definition renderModule : MethodModule :=
  {| handler := greet; paramsSchema := Some toStringSchema |}.

Definition inspectModule : MethodModule :=
  {| handler := greet; paramsSchema := Some inheritedNamesSchema |}.

Definition sampleMethods : gmap string MethodModule :=
  {[ "greet" := greetModule;
     "render" := renderModule; "inspect" := inspectModule ]}.

(** The envelope schema: [method] is required. *)
Definition sampleRequestSchema : Schema :=
  mkSchema None None {[ "required" := JStr "method" ]}.

Definition sampleSerializeError (err : Fault) : json :=
  match err with
  | TypeError msg =>
      JObj PlainObject {[ "name" := JStr "TypeError"; "message" := JStr msg ]}
  | OtherError name msg =>
      JObj PlainObject {[ "name" := JStr name; "message" := JStr msg ]}
  end.

Definition sampleToString (v : json) : string :=
  match v with
  | JNull => "null"
  | JBool true => "true"
  | JBool false => "false"
  | JNum n => pretty n
  | JStr s => s
  | JObj PlainObject _ => "[object Object]"
  | JObj ArrayObject _ => ""
  end.

(** A host in the given mode whose [json(req)] comes to [parsed]. *)
Definition sampleHost (env : option string) (parsed : Fault + json) : Host := {|
  micro_json _ := parsed;
  serializeError := sampleSerializeError;
  NODE_ENV := env;
  requestSchema := sampleRequestSchema;
  ToString := sampleToString;
  Object_keys o := (map_to_list o).*1;
  Object_keys_perm o := Permutation_refl _;
  builtin_has v k :=
    match v with
    | JObj ArrayObject _ | JStr _ => String.eqb k "length"
    | _ => false
    end;
  builtin_call _ _ _ := Raised (ThrowFault (TypeError "not a function"))
|}.

Definition rpcRequest : Request :=
  {| contentType := Some "application/json"; body := "" |}.

(** The parsed body [{jsonrpc: '2.0', method, params, id}] *)
Definition envelope (method : string) (params : option json) (id : Z) : json :=
  let fields : gmap string json :=
    {[ "jsonrpc" := JStr "2.0"; "method" := JStr method; "id" := JNum id ]} in
  JObj PlainObject
    match params with
    | Some p => <[ "params" := p ]> fields
    | None => fields
    end.

Definition syntaxError : Fault := OtherError "Error" "Invalid JSON".

(** The sample service on a body that parses to [parsed]. *)
Definition sampleService (env : option string) (parsed : Fault + json)
  : list Event * PipelineResult :=
  @handleRpcs bracketFreeLodash sampleTv4 (sampleHost env parsed) 10
    sampleMethods [] rpcRequest.

(** An error tree as tv4 builds it for a failed [anyOf]: the node of the
    object itself and, below it, the errors of the alternatives; two of
    them are about [name]. *)
Definition sampleErrorTree : ValidationError :=
  mkValidationError "Data does not match any schemas from anyOf"
    {| key := None |} "" "/anyOf"
    (Some [ typeError "name";
            requiredError "title";
            mkValidationError "name is too short" {| key := None |}
              "/name" "/anyOf/2/properties/name/minLength" None ]).

(** A violation of [minLength] on a property that is itself called
    [required]. *)
Definition minLengthOfRequired : ValidationError :=
  mkValidationError "required is too short" {| key := None |}
    "/required" "/properties/required/minLength" None.

(** [greet] called with the given name. *)
Definition greetCall (name : string) (id : Z) : json :=
  envelope "greet" (Some (JObj PlainObject {[ "name" := JStr name ]})) id.


(** [render] called with the empty object for [params]. *)
Definition renderCall : json := envelope "render" (Some emptyObject) 2.

(** The fields of [greetCall "ann" 4]. *)
Definition annFields : gmap string json :=
  <[ "params" := JObj PlainObject {[ "name" := JStr "ann" ]} ]>
    {[ "jsonrpc" := JStr "2.0"; "method" := JStr "greet"; "id" := JNum 4 ]}.

(** A schema that composes an inline subschema (an [allOf] entry without
    [$ref]), and a method that declares it. *)
Definition inlineAllOfSchema : Schema :=
  mkSchema (Some [ {| ref := Some "base" |}; {| ref := None |} ])
    (Some {[ "name" := nameDefault "own" ]}) ∅.

Definition inlineModule : MethodModule :=
  {| handler := greet; paramsSchema := Some inlineAllOfSchema |}.





(** * The JWT middleware and the client *)

(** [s.substring(n)] *)
Fixpoint string_drop (n : nat) (s : string) : string :=
  match n, s with
  | O, _ => s
  | S n', String _ s' => string_drop n' s'
  | S _, EmptyString => EmptyString
  end.

(** [s.replace(pat, rep)] for a string pattern and a replacement without
    [$]: the first occurrence of [pat] is replaced. *)
Fixpoint replaceFirst (pat rep s : string) : string :=
  if is_prefix pat s
  then (rep ++ string_drop (String.length pat) s)%string
  else match s with
       | EmptyString => EmptyString
       | String a s' => String a (replaceFirst pat rep s')
       end.

(** [jsonwebtoken.verify(token, secret)]: the decoded payload, or a throw. *)
Class Jsonwebtoken := {
  jwt_verify : string -> string -> Fault + json
}.

(** What [addJwt] reads and writes of a request:
    [req.headers.authorization] and [req.jwt]. *)
Record AuthRequest := {
  authorization : option string;
  jwt : option json
}.

(** [addJwt(secret)(fn)(req, res)]: reading [authorization] of a request
    without the header throws, and so may [verify]; both are caught and
    ignored. *)
Definition addJwt `{Jsonwebtoken} {R : Type} (secret : string)
  (fn : AuthRequest -> R) (req : AuthRequest) : R :=
  match authorization req with
  | None => fn req
  | Some header =>
      match jwt_verify (replaceFirst "Bearer " "" header) secret with
      | inr payload => fn {| authorization := authorization req; jwt := Some payload |}
      | inl _ => fn req
      end
  end.

(** The response of [fetch]: [url], [status], [statusText], and what
    [response.json()] comes to. *)
Record FetchResponse := {
  resp_url : string;
  resp_status : Z;
  resp_statusText : string;
  resp_json : Fault + json
}.

(** What the client runs on: [fetch], [JSON.stringify], lodash's [merge],
    [cookie.parse], [document.cookie] (absent outside a browser),
    [process.env] and [String.prototype.toUpperCase]. *)
Class ClientHost := {
  fetch : string -> json -> Fault + FetchResponse;
  JSON_stringify : json -> string;
  merge : json -> option json -> json;
  cookie_parse : string -> gmap string string;
  document_cookie : option string;
  process_env : gmap string string;
  toUpperCase : string -> string
}.

(** The [requestBody] of [rpc]: falsy [params] are replaced by [undefined],
    which leaves the envelope without [params]. *)
Definition requestBody (method : string) (params : option json) (id : string)
  : json :=
  let fields : gmap string json :=
    {[ "jsonrpc" := JStr "2.0"; "method" := JStr method; "id" := JStr id ]} in
  JObj PlainObject
    match params with
    | Some p => if truthy params then <[ "params" := p ]> fields else fields
    | None => fields
    end.

(** [/^2/.test(response.status.toString())] *)
Definition is2xx (status : Z) : bool :=
  match pretty status with
  | String "2" _ => true
  | _ => false
  end.

(** The response [rpc] makes up for a reply that is not 2xx. *)
Definition httpErrorResponse (id : string) (response : FetchResponse) : json :=
  JObj PlainObject
    {[ "jsonrpc" := JStr "2.0";
       "error" :=
         JObj PlainObject
           {[ "code" := JNum (-32603);
              "message" := JStr "Internal error";
              "id" := JStr id;
              "data" :=
                JObj PlainObject
                  {[ "url" := JStr (resp_url response);
                     "status" := JNum (resp_status response);
                     "statusText" := JStr (resp_statusText response) ]} ]} ]}.

(** The second argument of [fetch] *)
Definition fetchInit `{ClientHost} (body : json) (options : option json) : json :=
  merge
    (JObj PlainObject
       {[ "method" := JStr "POST";
          "credentials" := JStr "same-origin";
          "headers" :=
            JObj PlainObject
              {[ "Accept" := JStr "application/json";
                 "Content-Type" := JStr "application/json" ]};
          "body" := JStr (JSON_stringify body) ]})
    options.

(** [rpc(url, method, params, options)], with [id] the uuid it draws; what
    [logRequest] and [logResponse] write to the console is left out. *)
Definition rpc `{ClientHost} (url method : string) (params : option json)
  (options : option json) (id : string) : Fault + json :=
  match fetch url (fetchInit (requestBody method params id) options) with
  | inl err => inl err
  | inr response =>
      if is2xx (resp_status response) then resp_json response
      else inr (httpErrorResponse id response)
  end.

(** The argument [reqOrJwt]: a jwt, or a request with its [cookie] header. *)
Inductive ReqOrJwt :=
| Token (token : string)
| IncomingMessage (cookieHeader : option string).

(** [cookie.parse(header || '').jwt] *)
Definition cookieJwt `{ClientHost} (header : option string) : option string :=
  cookie_parse (match header with Some h => h | None => "" end) !! "jwt".

(** [getJwt(reqOrJwt)]; the empty string is falsy, like no argument. *)
Definition getJwt `{ClientHost} (reqOrJwt : option ReqOrJwt) : option string :=
  let fromDocument :=
    match document_cookie with
    | Some c => cookieJwt (Some c)
    | None => None
    end in
  match reqOrJwt with
  | Some (Token token) => if String.eqb token "" then fromDocument else Some token
  | Some (IncomingMessage header) => cookieJwt header
  | None => fromDocument
  end.

(** The header value [jwt && `Bearer ${jwt}`] *)
Definition bearer (token : option string) : option string :=
  match token with
  | None => None
  | Some t => Some (if String.eqb t "" then "" else "Bearer " ++ t)%string
  end.

(** [{headers: {Authorization: jwt && `Bearer ${jwt}`}}] *)
Definition jwtOptions (token : option string) : json :=
  JObj PlainObject
    {[ "headers" :=
         JObj PlainObject
           match bearer token with
           | Some value => {[ "Authorization" := JStr value ]}
           | None => ∅
           end ]}.

Definition jwtRpc `{ClientHost} (url method : string) (params : option json)
  (reqOrJwt : option ReqOrJwt) (id : string) : Fault + json :=
  rpc url method params (Some (jwtOptions (getJwt reqOrJwt))) id.

Definition svcRpc `{ClientHost} (service method : string) (params : option json)
  (reqOrJwt : option ReqOrJwt) (id : string) : Fault + json :=
  match process_env !! ("SVC_" ++ toUpperCase service ++ "_URL")%string with
  | Some url =>
      if String.eqb url ""
      then inl (OtherError "Error"
                  ("Rpc request made to service that wasn't found in config: "
                   ++ service))
      else jwtRpc url method params reqOrJwt id
  | None =>
      inl (OtherError "Error"
             ("Rpc request made to service that wasn't found in config: "
              ++ service))
  end.

(** A token checker that accepts the token ["good"] only, and a client
    whose server answers [503] for the url ["down"] and a result otherwise. *)
Definition sampleJsonwebtoken : Jsonwebtoken := {|
  jwt_verify token secret :=
    if String.eqb token "good"
    then inr (JObj PlainObject {[ "sub" := JStr "ann" ]})
    else inl (OtherError "JsonWebTokenError" "jwt malformed")
|}.

Definition downResponse : FetchResponse :=
  {| resp_url := "down"; resp_status := 503;
     resp_statusText := "Service Unavailable";
     resp_json := inl (OtherError "SyntaxError" "Unexpected token <") |}.

Definition sampleClient : ClientHost := {|
  fetch url init :=
    if String.eqb url "down"
    then inr downResponse
    else inr {| resp_url := url; resp_status := 200; resp_statusText := "OK";
                resp_json := inr (JObj PlainObject {[ "result" := JStr "ok" ]}) |};
  JSON_stringify _ := "";
  merge target _ := target;
  cookie_parse _ := ∅;
  document_cookie := None;
  process_env := ∅;
  toUpperCase s := s
|}.

(** * The method loader of [handleRpcs] *)

(** What [require] gives for a file of the rpc directory: a method module
    (a function, with or without [paramsSchema]) or a schema document (which
    is taken to have no property [paramsSchema]). *)
Inductive Exports :=
| ExportsMethod (module : MethodModule)
| ExportsSchema (schema : Schema).

(** An entry of the rpc directory: a file with what [require] comes to for
    it, a directory with what [require] comes to for its [index.js] (if it
    has one), or something else. *)
Inductive DirEntry :=
| File (filename : string) (required : Fault + Exports)
| Directory (dirname : string) (index : option (Fault + Exports))
| OtherEntry (name : string).

(** The registry object [methods], and the calls [tv4.addSchema(name, _)]
    made so far. *)
Definition Loaded : Type := gmap string MethodModule * list (string * Exports).

(** [module.paramsSchema] *)
Definition exported_paramsSchema (module : Exports) : option Schema :=
  match module with
  | ExportsMethod m => paramsSchema m
  | ExportsSchema _ => None
  end.

(** The registration of a method module: it must export [paramsSchema]. *)
Definition loadModule (label name : string) (module : Exports) (acc : Loaded)
  : Outcome Loaded :=
  match module with
  | ExportsMethod m =>
      match paramsSchema m with
      | Some schema =>
          Return (<[name := m]> (fst acc),
                  (snd acc ++ [(name, ExportsSchema schema)])%list)
      | None =>
          Throw (ThrowFault
                   (OtherError "Error" ("paramsSchema not exported from " ++ label)))
      end
  | ExportsSchema _ =>
      Throw (ThrowFault
               (OtherError "Error" ("paramsSchema not exported from " ++ label)))
  end.

(** [filename.split('.')[1] !== 'schema'] *)
Definition isMethod (filename : string) : bool :=
  match splitDots "" filename !! 1%nat with
  | Some part => negb (String.eqb part "schema")
  | None => true
  end.

(** The callback of the [reduce] over the files. *)
Definition loadFile (acc : Loaded) (entry : DirEntry) : Outcome Loaded :=
  match entry with
  | File filename required =>
      let name := hd "" (splitDots "" filename) in
      match required with
      | inl err => Throw (ThrowFault err)
      | inr module =>
          if isMethod filename
          then loadModule filename name module acc
          else Return (fst acc, (snd acc ++ [(name, module)])%list)
      end
  | _ => Return acc
  end.

Definition isDir (entry : DirEntry) : bool :=
  match entry with
  | Directory _ _ => true
  | _ => false
  end.

(** The callback of the [reduce] over the directories. *)
Definition loadDirectory (acc : Loaded) (entry : DirEntry) : Outcome Loaded :=
  match entry with
  | Directory dirname (Some required) =>
      match required with
      | inl err => Throw (ThrowFault err)
      | inr module => loadModule (dirname ++ "/index.js") dirname module acc
      end
  | _ => Return acc
  end.

(** The first part of [handleRpcs(rpcDir, _)]: the registry it builds from
    the directory ([None] when the directory does not exist). *)
Definition loadMethods (rpcDir : option (list DirEntry)) : Outcome Loaded :=
  match rpcDir with
  | None => Throw (ThrowFault (OtherError "Error" "Passed rpc directory not found"))
  | Some entries =>
      methods ← reduceM loadFile entries (∅, []);
      reduceM loadDirectory (List.filter isDir entries) methods
  end.

(** * The error reporters of [addError] *)

(** What a reporter returns: [null], [undefined] or a string. *)
Inductive Message :=
| MessageNull
| MessageUndefined
| MessageString (s : string).

Definition message_truthy (m : Message) : bool :=
  match m with
  | MessageString s => negb (String.eqb s "")
  | _ => false
  end.

(** [addError(fn)]: [_errors.unshift(fn)] *)
Definition addError {A : Type} (fn : A -> Outcome Message)
  (_errors : list (A -> Outcome Message)) : list (A -> Outcome Message) :=
  fn :: _errors.

(** The reporter given to tv4:
    [_errors.reduce((message, currentFn) => message || currentFn(...args), null)] *)
Definition errorReporter {A : Type} (_errors : list (A -> Outcome Message))
  (args : A) : Outcome Message :=
  reduceM (fun message currentFn =>
             if message_truthy message then Return message else currentFn args)
    _errors MessageNull.

(** * [prodRpcLogger] *)

(** The value [logRpc] resolves to, or the error it rejects with on its own
    account; the listener it registers for [finish] only writes to the
    console. *)
Definition prodRpcLogger `{Host} {R : Type} (fn : Request -> R) (request : Request)
  : Fault + R :=
  if bool_decide (contentType request = Some "application/json")
  then match micro_json (body request) with
       | inl err => inl err
       | inr _ => inr (fn request)
       end
  else inr (fn request).

(** A directory with the method [greet] as a file, a schema file, the
    method [render] as a directory, and a directory without [index.js]. *)
Definition sampleDirectory : list DirEntry :=
  [ File "greet.js" (inr (ExportsMethod greetModule));
    File "base.schema.js" (inr (ExportsSchema baseSchema));
    Directory "render" (Some (inr (ExportsMethod renderModule)));
    Directory "lib" None ].

(** The first method of the README: a function without [paramsSchema]. *)
Definition helloModule : MethodModule :=
  {| handler := fun _ _ => Returned (Some (JStr "hello world"));
     paramsSchema := None |}.

(** Where a method of the registry comes from: a method file whose name up
    to the first dot is [name], or the directory [name]. *)
Definition loadedFrom (entries : list DirEntry) (name : string) (m : MethodModule)
  : Prop :=
  (exists filename,
      File filename (inr (ExportsMethod m)) ∈ entries
      /\ hd "" (splitDots "" filename) = name
      /\ isMethod filename = true)
  \/ Directory name (Some (inr (ExportsMethod m))) ∈ entries.

(** Every method of the registry exports a [paramsSchema], which was
    registered with tv4 under the method's name, and comes from [entries]. *)
Definition wellLoaded (entries : list DirEntry) (acc : Loaded) : Prop :=
  forall name m,
    fst acc !! name = Some m ->
    (exists schema,
        paramsSchema m = Some schema
        /\ (name, ExportsSchema schema) ∈ snd acc)
    /\ loadedFrom entries name m.

(** * The configuration checks *)

(** The errors of the configuration scripts: ['.env file missing!'], the
    error of [fs.readFileSync('.env.example')] when that file cannot be
    read, and ["You're missing an env var in .env that's set in
    .env.example: "] followed by the list of the missing names. *)
Inductive ConfigError :=
| EnvFileMissing
| ExampleFileUnreadable
| MissingVars (missing : list string).

(** lodash's [difference(array, Object.keys(values))]: the elements of
    [array] that are not property names of [values], in their order. *)
Definition lodashDifference (array : list string) (values : gmap string string)
  : list string :=
  List.filter (fun k => negb (bool_decide (is_Some (values !! k)))) array.

(** [checkConfig.js]: [.env] must exist, [.env.example] is read ([None]
    when reading it throws; [envExample] is otherwise
    [Object.keys(dotenv.parse(...))] of its content), and every name of
    [.env.example] must be set in [process.env]. *)
Definition checkConfig (envExists : bool) (envExample : option (list string))
  (processEnv : gmap string string) : ConfigError + unit :=
  if negb envExists then inl EnvFileMissing
  else match envExample with
       | None => inl ExampleFileUnreadable
       | Some exampleKeys =>
           match lodashDifference exampleKeys processEnv with
           | [] => inr tt
           | missing => inl (MissingVars missing)
           end
       end.

(** The callback of the [forEach] that copies [.env] into [process.env]. *)
Definition copyVar (env : gmap string string) (processEnv : gmap string string)
  (k : string) : gmap string string :=
  if bool_decide (is_Some (processEnv !! k)) then processEnv
  else match env !! k with
       | Some v => <[k := v]> processEnv
       | None => processEnv
       end.

(** The configuration script that also loads [.env] ([None] when the file
    does not exist): every name of [.env.example] must be in [.env], and the
    variables of [.env] are then copied into [process.env]; it gives
    [process.env] as it leaves it. *)
Definition loadConfig (env : option (gmap string string))
  (exampleKeys : list string) (processEnv : gmap string string)
  : ConfigError + gmap string string :=
  match env with
  | None => inl EnvFileMissing
  | Some env =>
      match lodashDifference exampleKeys env with
      | [] => inr (fold_left (copyVar env) (map_to_list env).*1 processEnv)
      | missing => inl (MissingVars missing)
      end
  end.

(** The name an entry is registered under. *)
Definition loadedName (entry : DirEntry) : string :=
  match entry with
  | File filename _ => hd "" (splitDots "" filename)
  | Directory dirname _ => dirname
  | OtherEntry name => name
  end.

(** * Properties *)

(** ** Strings *)

Lemma contains_app_r (needle p s : string) :
  contains needle s = true -> contains needle (p ++ s)%string = true.
Proof.
  intros Hs. induction p as [|a p IH]; simpl; [exact Hs|].
  rewrite IH. apply orb_true_r.
Qed.

Lemma is_prefix_app (needle s : string) : is_prefix needle (needle ++ s)%string = true.
Proof.
  induction needle as [|a n IH]; simpl; [reflexivity|].
  rewrite Ascii.eqb_refl, IH. reflexivity.
Qed.

Lemma contains_infix (needle p s : string) :
  contains needle (p ++ needle ++ s)%string = true.
Proof.
  apply contains_app_r. destruct needle; simpl.
  - destruct s; reflexivity.
  - rewrite Ascii.eqb_refl, is_prefix_app. reflexivity.
Qed.

(** The [schemaPath] of a [required] rule matches [/required/]. *)
Lemma required_rule_matches (pre idx : string) :
  contains "required" (pre ++ "/required/" ++ idx)%string = true.
Proof. apply contains_app_r. reflexivity. Qed.

(** ** The flattener is a fold over the nodes in depth-first order *)

Section Flattener.
Context `{L : Lodash}.

Lemma fold_subErrors (subs : list ValidationError) :
  Forall (fun e => forall acc,
            _makeHashOutOfValidateErrors acc e = fold_left setError (preorder e) acc)
         subs ->
  forall acc,
    fold_left _makeHashOutOfValidateErrors subs acc
    = fold_left setError (flat_map preorder subs) acc.
Proof.
  induction 1 as [|e subs He _ IH]; intros acc; simpl; [reflexivity|].
  rewrite fold_left_app, <- He. apply IH.
Qed.

Lemma flatten_preorder (e : ValidationError) (acc : gmap string json) :
  _makeHashOutOfValidateErrors acc e = fold_left setError (preorder e) acc.
Proof.
  revert acc. induction e as [m p d s subs IH] using ValidationError_nested_ind.
  intros acc. destruct subs as [l|]; simpl; [|reflexivity].
  apply fold_subErrors, IH.
Qed.


(** [set(js, ['params', property], value)] on the properties of [js] *)
Lemma baseSet_params (m : gmap string json) (property : string) (value : json) :
  baseSet m ["params"; property] value
  = match m !! "params" with
    | Some (JObj c nested) =>
        <["params" := JObj c (if unsafeKey property then nested
                              else <[property := value]> nested)]> m
    | _ =>
        <["params" := JObj (if isIndex property then ArrayObject else PlainObject)
                           (if unsafeKey property then ∅
                            else {[ property := value ]})]> m
    end.
Proof.
  cbn [baseSet].
  change (unsafeKey "params") with false.
  change (Object_prototype_has "params") with false. cbv iota.
  destruct (m !! "params") as [[| | | |c nested]|];
    destruct (unsafeKey property); reflexivity.
Qed.


Lemma setError_direct (e : ValidationError) (acc : gmap string json) :
  directKey e = true ->
  setError acc e
  = if unsafeKey (toKey (errorPath e)) then acc
    else <[toKey (errorPath e) := JStr (message e)]> acc.
Proof.
  unfold directKey, setError, set, castPath, isKey.
  destruct (errorPath e) as [s|]; [|reflexivity].
  intros ->. reflexivity.
Qed.

Lemma setError_direct_safe (e : ValidationError) (acc : gmap string json) :
  directKey e = true ->
  unsafeKey (toKey (errorPath e)) = false ->
  setError acc e = <[toKey (errorPath e) := JStr (message e)]> acc.
Proof. intros Hd Hsafe. rewrite setError_direct, Hsafe by exact Hd. reflexivity. Qed.


End Flattener.




(** ** The pipeline up to the envelope check *)

Section Pipeline.
Context `{L : Lodash} `{T : Tv4} `{H : Host}.

Lemma handleRpcs_parsed (fuel : nat) (methods : gmap string MethodModule)
  (dontDefault : list string) (request : Request) (js : json) :
  contentType request = Some "application/json" ->
  micro_json (body request) = inr js ->
  handleRpcs fuel methods dontDefault request
  = let '(events, js', outcome) := tryBlock fuel methods dontDefault request js in
    respond events js' outcome.
Proof.
  intros Hct Hparse. unfold handleRpcs.
  rewrite bool_decide_eq_true_2 by exact Hct. simpl. rewrite Hparse. reflexivity.
Qed.

Lemma handleRpcs_invalid_request (fuel : nat) (methods : gmap string MethodModule)
  (dontDefault : list string) (request : Request) (c : objclass)
  (m : gmap string json) (e : ValidationError) :
  contentType request = Some "application/json" ->
  micro_json (body request) = inr (JObj c m) ->
  validateResult (JObj c m) requestSchema = Some e ->
  handleRpcs fuel methods dontDefault request
  = ([], Respond (Failure (-32600) "Invalid request"
                    (JObj PlainObject (_makeHashOutOfValidateErrors ∅ e))
                    (m !! "id"))).
Proof.
  intros Hct Hparse Hinvalid.
  rewrite (handleRpcs_parsed _ _ _ _ _ Hct Hparse).
  unfold tryBlock. rewrite Hinvalid. reflexivity.
Qed.

End Pipeline.

(** The three keys [baseSet] refuses are plain property names. *)
Lemma unsafeKey_plain (name : string) :
  unsafeKey name = true -> reIsPlainProp name = true.
Proof.
  unfold unsafeKey. intros Hname.
  apply orb_prop in Hname as [Hname|Hname];
    [apply orb_prop in Hname as [Hname|Hname]|];
    apply String.eqb_eq in Hname; subst name; reflexivity.
Qed.

(** C2, as amended: a missing-required-field violation (a node whose
    [schemaPath] is that of a [required] rule, [.../required/<index>]) is
    [set] at the lodash path [params.key], the name of the missing field,
    whatever its [dataPath].  When lodash takes the name as one property
    name (word characters only, or no deep-path syntax) and it is not one of
    [__proto__], [constructor] and [prototype], the message is the entry
    under that name; for these three names nothing is assigned; and a name
    that lodash parses into two segments [a] and [b] is set as the nested
    path, [{a: {b: message}}].  A required-field error with
    [params.key = "title"] flattens to [{title: message}], which is not
    [{"": message}].  And when the validator reports the missing [method] of
    a parsed body in this way, the pipeline answers [-32600] with the map
    [{method: message}]. *)
Theorem required_error_keyed_by_field_name `{L : Lodash} `{T : Tv4} `{H : Host} :
  (forall (e : ValidationError) (pre idx name : string) (acc : gmap string json),
      schemaPath e = (pre ++ "/required/" ++ idx)%string ->
      key (params e) = Some name ->
      errorPath e = Some name
      /\ (subErrors e = None \/ subErrors e = Some [] ->
          _makeHashOutOfValidateErrors acc e = set acc (Some name) (JStr (message e))
          /\ (reIsPlainProp name || negb (reIsDeepProp name) = true ->
              unsafeKey name = false ->
              _makeHashOutOfValidateErrors acc e = <[name := JStr (message e)]> acc)
          /\ (unsafeKey name = true ->
              _makeHashOutOfValidateErrors acc e = acc)
          /\ (forall a b : string,
                isKey (Some name) acc = false ->
                stringToPath name = [a; b] ->
                unsafeKey a = false -> unsafeKey b = false ->
                acc !! a = None -> Object_prototype_has a = false ->
                _makeHashOutOfValidateErrors acc e
                = <[a := JObj (if isIndex b then ArrayObject else PlainObject)
                              {[ b := JStr (message e) ]}]> acc)))
  /\ (forall msg dp pre idx : string,
        _makeHashOutOfValidateErrors ∅
          (mkValidationError msg {| key := Some "title" |} dp
             (pre ++ "/required/" ++ idx)%string None)
        = {[ "title" := JStr msg ]}
        /\ ({[ "title" := JStr msg ]} : gmap string json) <> {[ "" := JStr msg ]})
  /\ (forall (fuel : nat) (methods : gmap string MethodModule)
        (dontDefault : list string) (request : Request) (c : objclass)
        (m : gmap string json) (e : ValidationError) (pre idx : string),
        contentType request = Some "application/json" ->
        micro_json (body request) = inr (JObj c m) ->
        validateResult (JObj c m) requestSchema = Some e ->
        schemaPath e = (pre ++ "/required/" ++ idx)%string ->
        key (params e) = Some "method" ->
        subErrors e = None ->
        handleRpcs fuel methods dontDefault request
        = ([], Respond (Failure (-32600) "Invalid request"
                          (JObj PlainObject {[ "method" := JStr (message e) ]})
                          (m !! "id")))).
Proof.
  assert (Hpath : forall e pre idx,
             schemaPath e = (pre ++ "/required/" ++ idx)%string ->
             errorPath e = key (params e)).
  { intros e pre idx Hsp. unfold errorPath.
    rewrite Hsp, required_rule_matches. reflexivity. }
  split; [|split].
  - intros e pre idx name acc Hsp Hkey.
    assert (He : errorPath e = Some name)
      by (rewrite (Hpath e pre idx Hsp); exact Hkey).
    split; [exact He|]. intros Hleaf.
    assert (Hflat : _makeHashOutOfValidateErrors acc e = setError acc e).
    { destruct e as [msg p d s subs]; simpl in *.
      destruct Hleaf as [-> | ->]; reflexivity. }
    rewrite Hflat. split; [|split; [|split]].
    + unfold setError. rewrite He. reflexivity.
    + intros Hdirect Hsafe. rewrite setError_direct_safe.
      * rewrite He. reflexivity.
      * unfold directKey. rewrite He. exact Hdirect.
      * rewrite He. exact Hsafe.
    + intros Hunsafe. rewrite setError_direct.
      * rewrite He. cbn [toKey]. rewrite Hunsafe. reflexivity.
      * unfold directKey. rewrite He, (unsafeKey_plain _ Hunsafe). reflexivity.
    + intros a b Hdeep Hparse Ha Hb Hnone Hproto.
      unfold setError, set, castPath. rewrite He, Hdeep. cbn [toKey].
      rewrite Hparse. cbn [baseSet]. rewrite Ha, Hb, Hnone, Hproto. reflexivity.
  - intros msg dp pre idx. split.
    + set (e := mkValidationError msg {| key := Some "title" |} dp
                  (pre ++ "/required/" ++ idx)%string None).
      assert (He : errorPath e = Some "title") by apply (Hpath e pre idx eq_refl).
      change (setError ∅ e = {[ "title" := JStr msg ]}).
      rewrite setError_direct_safe; try (unfold directKey); rewrite He; reflexivity.
    + intros Heq. apply (f_equal (fun o => o !! "title")) in Heq.
      rewrite lookup_singleton_eq, lookup_singleton_ne in Heq by discriminate.
      discriminate.
  - intros fuel methods dontDefault request c m e pre idx Hct Hparse Hinv Hsp Hkey Hleaf.
    rewrite (handleRpcs_invalid_request _ _ _ _ _ _ _ Hct Hparse Hinv).
    do 2 f_equal.
    assert (He : errorPath e = Some "method")
      by (rewrite (Hpath e pre idx Hsp); exact Hkey).
    assert (Hset : setError ∅ e = {[ "method" := JStr (message e) ]})
      by (rewrite setError_direct_safe; try (unfold directKey); rewrite He;
          reflexivity).
    destruct e as [msg p d s subs]; simpl in *. subst subs. rewrite Hset. reflexivity.
Qed.

Lemma required_error_keyed_by_field_name_witness :
  errorPath (requiredError "title") = Some "title"
  /\ @_makeHashOutOfValidateErrors bracketFreeLodash ∅ (requiredError "title")
     = {[ "title" := JStr "title is required" ]}
  /\ @_makeHashOutOfValidateErrors bracketFreeLodash {[ "id" := JStr "kept" ]}
       (requiredError "__proto__")
     = {[ "id" := JStr "kept" ]}
  /\ @_makeHashOutOfValidateErrors bracketFreeLodash ∅ (requiredError "user.name")
     = {[ "user" := JObj PlainObject {[ "name" := JStr "user.name is required" ]} ]}
  /\ sampleService None (inr (JObj PlainObject {[ "id" := JNum 7 ]}))
     = ([], Respond (Failure (-32600) "Invalid request"
                       (JObj PlainObject {[ "method" := JStr "method is required" ]})
                       (Some (JNum 7)))).
Proof.
  destruct (@required_error_keyed_by_field_name bracketFreeLodash sampleTv4
              (sampleHost None (inr (JObj PlainObject {[ "id" := JNum 7 ]}))))
    as (Hnode & _ & Hpipeline).
  destruct (Hnode (requiredError "title") "" "0" "title" ∅ eq_refl eq_refl)
    as [Hpath Hflat].
  destruct (Hflat (or_introl eq_refl)) as (_ & Hkeyed & _).
  destruct (Hnode (requiredError "__proto__") "" "0" "__proto__"
              {[ "id" := JStr "kept" ]} eq_refl eq_refl) as [_ Hproto].
  destruct (Hproto (or_introl eq_refl)) as (_ & _ & Hrefused & _).
  destruct (Hnode (requiredError "user.name") "" "0" "user.name" ∅ eq_refl eq_refl)
    as [_ Hdotted].
  destruct (Hdotted (or_introl eq_refl)) as (_ & _ & _ & Hnested).
  split; [exact Hpath|split; [|split; [|split]]].
  - apply Hkeyed; reflexivity.
  - apply Hrefused. reflexivity.
  - exact (Hnested "user" "name" eq_refl eq_refl eq_refl eq_refl eq_refl eq_refl).
  - exact (Hpipeline 10%nat sampleMethods [] rpcRequest PlainObject
             {[ "id" := JNum 7 ]} (requiredError "method") "" "0"
             eq_refl eq_refl eq_refl eq_refl eq_refl eq_refl).
Defined.

(** C2 as stated fails: the message of a missing required field is not
    always keyed by the field's name.  For the field [user.name] the
    flattened map has no entry under ["user.name"]: lodash takes the name as
    a path and nests the message under [user]; and for the field
    [constructor] it has no entry at all. *)
Lemma required_name_not_a_key :
  key (params (requiredError "user.name")) = Some "user.name"
  /\ @_makeHashOutOfValidateErrors bracketFreeLodash ∅ (requiredError "user.name")
     = {[ "user" := JObj PlainObject {[ "name" := JStr "user.name is required" ]} ]}
  /\ @_makeHashOutOfValidateErrors bracketFreeLodash ∅ (requiredError "user.name")
     <> {[ "user.name" := JStr "user.name is required" ]}
  /\ key (params (requiredError "constructor")) = Some "constructor"
  /\ @_makeHashOutOfValidateErrors bracketFreeLodash ∅ (requiredError "constructor")
     = ∅
  /\ (∅ : gmap string json) <> {[ "constructor" := JStr "constructor is required" ]}.
Proof.
  repeat split; try reflexivity.
  - intros Heq. apply (f_equal (fun o => o !! "user")) in Heq.
    vm_compute in Heq. discriminate.
  - intros Heq. apply (f_equal (fun o => o !! "constructor")) in Heq.
    vm_compute in Heq. discriminate.
Qed.

(** C10: the flattener chooses between [params.key] and the path derived
    from [dataPath] solely by whether ["required"] occurs in [schemaPath]:
    two nodes that differ in [schemaPath] only, and agree on whether it
    contains ["required"], flatten alike; the path is [params.key] when it
    does and the [dataPath]-derived one when it does not.  Hence a
    [minLength] violation on a property called [required] (schemaPath
    [/properties/required/minLength], no [params.key]) is placed under the
    absent [params.key], which lodash names ["undefined"], and not under
    [required], where its [dataPath] points. *)
Theorem path_chosen_by_required_substring `{L : Lodash} :
  (forall (msg : string) (p : ErrorParams) (dp sp sp' : string)
      (subs : option (list ValidationError)) (acc : gmap string json),
      contains "required" sp = contains "required" sp' ->
      _makeHashOutOfValidateErrors acc (mkValidationError msg p dp sp subs)
      = _makeHashOutOfValidateErrors acc (mkValidationError msg p dp sp' subs))
  /\ (forall e : ValidationError,
        contains "required" (schemaPath e) = true ->
        errorPath e = key (params e))
  /\ (forall e : ValidationError,
        contains "required" (schemaPath e) = false ->
        errorPath e = Some (slashes_to_dots (substring1 (dataPath e))))
  /\ (contains "required" (schemaPath minLengthOfRequired) = true
      /\ key (params minLengthOfRequired) = None
      /\ _makeHashOutOfValidateErrors ∅ minLengthOfRequired
         = {[ "undefined" := JStr "required is too short" ]}
      /\ slashes_to_dots (substring1 (dataPath minLengthOfRequired)) = "required"
      /\ _makeHashOutOfValidateErrors ∅ minLengthOfRequired !! "required" = None).
Proof.
  split; [|split; [|split]].
  - intros msg p dp sp sp' subs acc Hsame. simpl.
    unfold setError, errorPath. simpl. rewrite Hsame. reflexivity.
  - intros e He. unfold errorPath. rewrite He. reflexivity.
  - intros e He. unfold errorPath. rewrite He. reflexivity.
  - repeat split; reflexivity.
Qed.

Lemma path_chosen_by_required_substring_witness :
  @_makeHashOutOfValidateErrors bracketFreeLodash ∅
    (mkValidationError "m" {| key := Some "title" |} "/a" "/required/0" None)
  = @_makeHashOutOfValidateErrors bracketFreeLodash ∅
      (mkValidationError "m" {| key := Some "title" |} "/a"
         "/properties/required/minLength" None)
  /\ errorPath (requiredError "title") = Some "title"
  /\ errorPath (typeError "name") = Some "name".
Proof.
  destruct (@path_chosen_by_required_substring bracketFreeLodash)
    as (Hsame & Hkey & Hdata & _).
  split; [|split].
  - apply Hsame. reflexivity.
  - apply (Hkey (requiredError "title")). reflexivity.
  - apply (Hdata (typeError "name")). reflexivity.
Defined.

(** ** Parse errors and method lookup *)

(** C7: a body that is not well-formed JSON (micro's [json] throws) is
    answered with code [-32700], message ["Parse error"], the serialized
    error as data, and the id [null]; no handler is called. *)
Theorem parse_error_response `{L : Lodash} `{T : Tv4} `{H : Host}
  (fuel : nat) (methods : gmap string MethodModule) (dontDefault : list string)
  (request : Request) (err : Fault) :
  contentType request = Some "application/json" ->
  micro_json (body request) = inl err ->
  handleRpcs fuel methods dontDefault request
  = ([], Respond (Failure (-32700) "Parse error" (serializeError err) (Some JNull))).
Proof.
  intros Hct Hparse. unfold handleRpcs.
  rewrite bool_decide_eq_true_2 by exact Hct. simpl. rewrite Hparse. reflexivity.
Qed.

Lemma parse_error_response_witness :
  sampleService None (inl syntaxError)
  = ([], Respond (Failure (-32700) "Parse error"
                    (sampleSerializeError syntaxError) (Some JNull))).
Proof.
  exact (@parse_error_response bracketFreeLodash sampleTv4
           (sampleHost None (inl syntaxError)) 10%nat sampleMethods []
           rpcRequest syntaxError eq_refl eq_refl).
Defined.

Section Lookup.
Context `{L : Lodash} `{T : Tv4} `{H : Host}.

Lemma js_read_field (js : json) (k : string) :
  js <> JNull -> js_read js k = Return (js_field js k).
Proof. destruct js; intros Hjs; try reflexivity. contradiction. Qed.

(** A name that is neither a loaded method nor a member of
    [Object.prototype] is answered with "Method not found". *)
Lemma method_not_found (fuel : nat) (methods : gmap string MethodModule)
  (dontDefault : list string) (request : Request) (js : json) :
  contentType request = Some "application/json" ->
  micro_json (body request) = inr js ->
  js <> JNull ->
  validateResult js requestSchema = None ->
  methods !! toPropertyKey (js_field js "method") = None ->
  Object_prototype_has (toPropertyKey (js_field js "method")) = false ->
  handleRpcs fuel methods dontDefault request
  = ([], Respond (Failure (-32601) "Method not found" JNull (js_field js "id"))).
Proof.
  intros Hct Hparse Hjs Hvalid Hown Hproto.
  rewrite (handleRpcs_parsed _ _ _ _ _ Hct Hparse).
  unfold tryBlock. rewrite Hvalid, (js_read_field _ _ Hjs).
  unfold methods_get. rewrite Hown, Hproto. simpl.
  rewrite (js_read_field _ _ Hjs). reflexivity.
Qed.

(** A name that [Object.prototype] defines is found in the registry object
    even when no method of that name was loaded. *)
Lemma inherited_member_found (methods : gmap string MethodModule) (name : string) :
  Object_prototype_has name = true ->
  methods_get methods name <> None.
Proof.
  intros Hproto. unfold methods_get.
  destruct (methods !! name); [discriminate|]. rewrite Hproto. discriminate.
Qed.

(** Such a name passes the method lookup: for [toString], the inherited
    function is called and its result is the response. *)
Lemma inherited_toString_dispatched (fuel : nat) (methods : gmap string MethodModule)
  (dontDefault : list string) (request : Request) (c : objclass)
  (m : gmap string json) :
  contentType request = Some "application/json" ->
  micro_json (body request) = inr (JObj c m) ->
  validateResult (JObj c m) requestSchema = None ->
  m !! "method" = Some (JStr "toString") ->
  methods !! "toString" = None ->
  handleRpcs fuel methods dontDefault request
  = ([Dispatch "toString" (m !! "params")],
     Respond (Success (Some (JStr "[object Object]")) (m !! "id"))).
Proof.
  intros Hct Hparse Hvalid Hmethod Hown.
  rewrite (handleRpcs_parsed _ _ _ _ _ Hct Hparse).
  unfold tryBlock. rewrite Hvalid. simpl. rewrite Hmethod. simpl.
  unfold methods_get. rewrite Hown. reflexivity.
Qed.

End Lookup.

(** C3, at a request the code answers otherwise: the registry of the sample
    service has no method [toString], yet the request
    [{jsonrpc: '2.0', method: 'toString', id: 2}] is not answered with
    [-32601]: [methods['toString']] is the function every object inherits,
    the lookup passes, the function is called, and its result comes back as
    a success. *)
Theorem unregistered_toString_not_rejected :
  sampleMethods !! "toString" = None
  /\ sampleService None (inr (envelope "toString" None 2))
     = ([Dispatch "toString" None],
        Respond (Success (Some (JStr "[object Object]")) (Some (JNum 2)))).
Proof. split; reflexivity. Qed.

(** ** Default injection touches [params] only *)

Section Preservation.
Context `{T : Tv4} `{H : Host}.

Lemma keeps_setParam (js : json) (property : string) (value : json) :
  keepsEnvelope js (setParam js property value).
Proof.
  split.
  - destruct js; simpl; intros Hjs; congruence.
  - intros k Hk. destruct js as [| | | |c m]; try reflexivity.
    cbn [setParam js_field]. rewrite baseSet_params.
    destruct (m !! "params") as [[| | | |c' nested]|];
      rewrite lookup_insert_ne; congruence.
Qed.

Lemma keeps_defaultProperty (props : gmap string PropertySchema) (js : json)
  (property : string) :
  keepsEnvelope js (defaultProperty props js property).
Proof.
  unfold defaultProperty.
  destruct (props !! property) as [ps|]; [|split; auto].
  destruct (default ps) as [value|]; [|split; auto].
  destruct (hasParam js property); [split; auto|apply keeps_setParam].
Qed.

Lemma keeps_fold (props : gmap string PropertySchema) (keys : list string) (js : json) :
  keepsEnvelope js (fold_left (defaultProperty props) keys js).
Proof.
  revert js. induction keys as [|k keys IH]; intros js; simpl; [split; auto|].
  destruct (keeps_defaultProperty props js k) as [Hnull Hfield].
  destruct (IH (defaultProperty props js k)) as [Hnull' Hfield'].
  split; [auto|]. intros k' Hk'. rewrite Hfield', Hfield; auto.
Qed.

Lemma defaultStep_keeps (fuel : nat) (member : Member) (dontDefault : list string)
  (method : option json) (js js' : json) :
  defaultStep fuel member dontDefault method js = Return js' ->
  (js <> JNull -> js' <> JNull)
  /\ forall k, k <> "params" -> js_field js' k = js_field js k.
Proof.
  unfold defaultStep.
  destruct (member_paramsSchema member) as [schema|];
    [|intros [= <-]; split; auto].
  destruct (notListed dontDefault method); [|intros [= <-]; split; auto].
  destruct (_resolveAndCombineAllOfs fuel schema) as [combined| |]; simpl;
    [|discriminate..].
  intros [= <-]. apply keeps_fold.
Qed.

End Preservation.

(** ** Accepted requests are dispatched *)

Section Dispatching.
Context `{L : Lodash} `{T : Tv4} `{H : Host}.

Lemma handleRpcs_accepted (fuel : nat) (methods : gmap string MethodModule)
  (dontDefault : list string) (request : Request) (js : json) (member : Member)
  (js' : json) :
  accepted fuel methods dontDefault request js member js' ->
  handleRpcs fuel methods dontDefault request
  = respond [Dispatch (toPropertyKey (js_field js "method")) (js_field js' "params")]
      js'
      match dispatchCall request js member js' with
      | Returned result => Return result
      | Raised t => Throw t
      end.
Proof.
  intros (Hct & Hparse & Hjs & Hvalid & Hmember & Hdefault & Hparams).
  rewrite (handleRpcs_parsed _ _ _ _ _ Hct Hparse).
  unfold tryBlock.
  rewrite Hvalid, (js_read_field _ _ Hjs), Hmember, Hdefault, Hparams.
  reflexivity.
Qed.

Lemma accepted_id (fuel : nat) (methods : gmap string MethodModule)
  (dontDefault : list string) (request : Request) (js : json) (member : Member)
  (js' : json) :
  accepted fuel methods dontDefault request js member js' ->
  js_read js' "id" = Return (js_field js "id").
Proof.
  intros (_ & _ & Hjs & _ & _ & Hdefault & _).
  destruct (defaultStep_keeps _ _ _ _ _ _ Hdefault) as [Hnull Hfield].
  rewrite (js_read_field _ _ (Hnull Hjs)), Hfield by discriminate. reflexivity.
Qed.

End Dispatching.

(** ** The schema composer *)

Section Composer.
Context `{T : Tv4}.

Lemma resolve_plain (fuel : nat) (schema : Schema) :
  allOf schema = None -> _resolveAndCombineAllOfs fuel schema = Return schema.
Proof. intros Hnone. destruct fuel; simpl; rewrite Hnone; reflexivity. Qed.

Lemma resolve_allOf (fuel : nat) (schema : Schema) (refs : list AllOfEntry) :
  allOf schema = Some refs ->
  _resolveAndCombineAllOfs (S fuel) schema
  = (combinedProperties ← reduceM (combineRef (_resolveAndCombineAllOfs fuel)) refs
                            (orEmpty (properties schema));
     Return (mkSchema (allOf schema) (Some combinedProperties) (keywords schema))).
Proof. intros Hrefs. simpl. rewrite Hrefs. reflexivity. Qed.

Lemma combineRef_registered (resolve : Schema -> Outcome Schema)
  (prev : gmap string PropertySchema) (curr : AllOfEntry) (schemaOfRef r : Schema) :
  getSchema (toKey (ref curr)) = Some schemaOfRef ->
  resolve schemaOfRef = Return r ->
  combineRef resolve prev curr = Return (assignProperties prev (properties r)).
Proof. intros Hreg Hres. unfold combineRef. rewrite Hreg, Hres. reflexivity. Qed.

Lemma reduce_resolved (depth : nat) (refs : list AllOfEntry) (resolved : list Schema) :
  Forall2 (resolvesTo depth) refs resolved ->
  forall fuel init, (depth <= fuel)%nat ->
    reduceM (combineRef (_resolveAndCombineAllOfs fuel)) refs init
    = Return (combineProperties resolved init).
Proof.
  induction 1 as [|curr r refs resolved (sref & Hreg & Hres) _ IH];
    intros fuel init Hfuel; simpl; [reflexivity|].
  cbn [reduceM]. rewrite (combineRef_registered _ _ _ _ _ Hreg (Hres fuel Hfuel)).
  apply IH, Hfuel.
Qed.

Lemma resolve_combined (depth : nat) (schema : Schema) (refs : list AllOfEntry)
  (resolved : list Schema) :
  allOf schema = Some refs ->
  Forall2 (resolvesTo depth) refs resolved ->
  forall fuel, (S depth <= fuel)%nat ->
    _resolveAndCombineAllOfs fuel schema
    = Return (mkSchema (allOf schema)
                (Some (combineProperties resolved (orEmpty (properties schema))))
                (keywords schema)).
Proof.
  intros Hall Hrefs [|fuel] Hfuel; [lia|].
  rewrite (resolve_allOf _ _ _ Hall).
  rewrite (reduce_resolved _ _ _ Hrefs) by lia. reflexivity.
Qed.

Lemma refs_resolved (depth : nat) (refs : list AllOfEntry) :
  (forall schema, resolvable depth schema ->
     exists r, forall fuel, (depth <= fuel)%nat ->
       _resolveAndCombineAllOfs fuel schema = Return r) ->
  Forall (fun curr =>
            match getSchema (toKey (ref curr)) with
            | None => False
            | Some schemaOfRef => resolvable depth schemaOfRef
            end) refs ->
  exists resolved, Forall2 (resolvesTo depth) refs resolved.
Proof.
  intros Htotal. induction 1 as [|curr refs Hcurr _ (resolved & IHrefs)].
  - exists []. constructor.
  - destruct (getSchema (toKey (ref curr))) as [sref|] eqn:Hreg; [|contradiction].
    destruct (Htotal sref Hcurr) as [r Hr].
    exists (r :: resolved). constructor; [|exact IHrefs].
    exists sref. split; [exact Hreg|exact Hr].
Qed.

(** A schema whose references can be resolved is resolved, given enough
    recursion depth, and to the same schema whatever the depth. *)
Lemma resolvable_total (depth : nat) (schema : Schema) :
  resolvable depth schema ->
  exists resolvedSchema, forall fuel, (depth <= fuel)%nat ->
    _resolveAndCombineAllOfs fuel schema = Return resolvedSchema.
Proof.
  revert schema. induction depth as [|depth IH]; intros schema Hres.
  - simpl in Hres. destruct (allOf schema) eqn:Hall; [contradiction|].
    exists schema. intros fuel _. apply resolve_plain, Hall.
  - simpl in Hres. destruct (allOf schema) as [refs|] eqn:Hall.
    + destruct (refs_resolved depth refs IH Hres) as [resolved Hrefs].
      eexists. apply (resolve_combined _ _ _ _ Hall Hrefs).
    + exists schema. intros fuel _. apply resolve_plain, Hall.
Qed.

Lemma assignProperties_lookup (prev : gmap string PropertySchema)
  (props : option (gmap string PropertySchema)) (k : string) :
  assignProperties prev props !! k
  = match orEmpty props !! k with
    | Some ps => Some ps
    | None => prev !! k
    end.
Proof.
  destruct props as [p|]; simpl; [|rewrite lookup_empty; reflexivity].
  rewrite lookup_union. destruct (p !! k), (prev !! k); reflexivity.
Qed.

Lemma combineProperties_lookup (resolved : list Schema)
  (init : gmap string PropertySchema) (k : string) :
  combineProperties resolved init !! k
  = match lastDeclaring k resolved with
    | Some ps => Some ps
    | None => init !! k
    end.
Proof.
  unfold combineProperties, lastDeclaring.
  induction resolved as [|r resolved IH] using rev_ind; [reflexivity|].
  rewrite !fold_left_app. simpl. rewrite assignProperties_lookup.
  destruct (orEmpty (properties r) !! k); [reflexivity|exact IH].
Qed.

Lemma lastDeclaring_is_Some (resolved : list Schema) (k : string) :
  is_Some (lastDeclaring k resolved)
  <-> Exists (fun r => is_Some (orEmpty (properties r) !! k)) resolved.
Proof.
  unfold lastDeclaring.
  induction resolved as [|r resolved IH] using rev_ind.
  - simpl. split; [intros [? [=]]|intros Hex; inversion Hex].
  - rewrite fold_left_app, Exists_app. simpl.
    destruct (orEmpty (properties r) !! k) as [ps|] eqn:Hk.
    + split; [|eauto]. intros _. right. constructor. rewrite Hk. eauto.
    + rewrite IH. split; [tauto|]. intros [Hex|Hex]; [exact Hex|].
      inversion Hex as [? ? [? Hsome]|? ? Hnil]; subst;
        [congruence|inversion Hnil].
Qed.

End Composer.

(** C1, as the code has it: for a schema with [allOf] whose references can
    be resolved, [_resolveAndCombineAllOfs] returns the schema with, as its
    [properties], the properties of the recursively resolved references
    assigned in their declared order over the schema's own properties.  It
    is their union: a name is declared by the result exactly when the schema
    or one of the resolved references declares it.  On a collision the
    property of the last reference that declares the name is the one kept;
    the schema's own property is kept only where no reference declares the
    name. *)
Theorem composed_properties_override_own `{T : Tv4} (depth : nat)
  (schema : Schema) (refs : list AllOfEntry) :
  allOf schema = Some refs ->
  resolvable (S depth) schema ->
  exists resolved : list Schema,
    Forall2 (resolvesTo depth) refs resolved
    /\ (forall fuel, (S depth <= fuel)%nat ->
          _resolveAndCombineAllOfs fuel schema
          = Return (mkSchema (allOf schema)
                      (Some (combineProperties resolved
                               (orEmpty (properties schema))))
                      (keywords schema)))
    /\ (forall k,
          combineProperties resolved (orEmpty (properties schema)) !! k
          = match lastDeclaring k resolved with
            | Some ps => Some ps
            | None => orEmpty (properties schema) !! k
            end)
    /\ (forall k,
          is_Some (combineProperties resolved (orEmpty (properties schema)) !! k)
          <-> is_Some (orEmpty (properties schema) !! k)
              \/ Exists (fun r => is_Some (orEmpty (properties r) !! k)) resolved).
Proof.
  intros Hall Hres. simpl in Hres. rewrite Hall in Hres.
  destruct (refs_resolved depth refs (resolvable_total depth) Hres)
    as [resolved Hrefs].
  exists resolved. split; [exact Hrefs|split; [|split]].
  - apply (resolve_combined _ _ _ _ Hall Hrefs).
  - intros k. apply combineProperties_lookup.
  - intros k. rewrite combineProperties_lookup, <- lastDeclaring_is_Some.
    destruct (lastDeclaring k resolved) as [ps|]; split; eauto.
    + intros [Hown|[? [=]]]. exact Hown.
Qed.

Lemma composed_properties_override_own_witness :
  exists resolved : list Schema,
    Forall2 (@resolvesTo sampleTv4 0) [ {| ref := Some "base" |} ] resolved
    /\ @_resolveAndCombineAllOfs sampleTv4 1 derivedSchema
       = Return (mkSchema (allOf derivedSchema)
                   (Some (combineProperties resolved
                            (orEmpty (properties derivedSchema))))
                   (keywords derivedSchema)).
Proof.
  destruct (@composed_properties_override_own sampleTv4 0 derivedSchema
              [ {| ref := Some "base" |} ] eq_refl)
    as (resolved & Hrefs & Hresolve & _).
  - simpl. repeat constructor.
  - exists resolved. split; [exact Hrefs|]. apply Hresolve. lia.
Defined.

(** C1 as stated fails: [derivedSchema] declares [name] with the default
    ["own"] and composes [base], which declares [name] with the default
    ["base"]; the resolved schema has the base's property, not its own. *)
Lemma own_property_overridden :
  orEmpty (properties derivedSchema) !! "name" = Some (nameDefault "own")
  /\ @_resolveAndCombineAllOfs sampleTv4 1 derivedSchema
     = Return (mkSchema (allOf derivedSchema)
                 (Some {[ "name" := nameDefault "base"; "lang" := nameDefault "en" ]})
                 (keywords derivedSchema))
  /\ ({[ "name" := nameDefault "base"; "lang" := nameDefault "en" ]}
       : gmap string PropertySchema) !! "name" <> Some (nameDefault "own").
Proof. repeat split; try reflexivity. vm_compute. discriminate. Qed.

(** A schema that composes itself is not resolved within any bound (in
    JavaScript the recursion overflows the stack). *)
Lemma cyclic_never_resolved (fuel : nat) :
  @_resolveAndCombineAllOfs sampleTv4 fuel cyclicSchema = OutOfFuel.
Proof.
  induction fuel as [|fuel IH]; [reflexivity|].
  rewrite (@resolve_allOf sampleTv4 fuel cyclicSchema
             [ {| ref := Some "cyclic" |} ] eq_refl).
  assert (Hcurr : forall init,
             @combineRef sampleTv4 (@_resolveAndCombineAllOfs sampleTv4 fuel) init
               {| ref := Some "cyclic" |} = OutOfFuel).
  { intros init. unfold combineRef.
    change (@getSchema sampleTv4 (toKey (ref {| ref := Some "cyclic" |})))
      with (Some cyclicSchema).
    cbv beta iota. rewrite IH. reflexivity. }
  cbn [reduceM]. rewrite Hcurr. reflexivity.
Qed.

(** ** Responses carry the request's id *)

Section Responses.
Context `{L : Lodash} `{T : Tv4} `{H : Host}.






End Responses.



(** C9: when the handler called for an accepted request throws an
    [RpcError], its code, message and data are the error of the response.
    When it throws anything else, the response has code [-32603] and message
    ["Internal error"]; outside production its data is the serialized fault;
    in production its data is [false] and the serialized fault is written to
    the error console instead. *)
Theorem handler_fault_mapping `{L : Lodash} `{T : Tv4} `{H : Host}
  (fuel : nat) (methods : gmap string MethodModule) (dontDefault : list string)
  (request : Request) (js : json) (member : Member) (js' : json) :
  accepted fuel methods dontDefault request js member js' ->
  let dispatched :=
    Dispatch (toPropertyKey (js_field js "method")) (js_field js' "params") in
  (forall err,
      dispatchCall request js member js' = Raised (ThrowRpcError err) ->
      handleRpcs fuel methods dontDefault request
      = ([dispatched],
         Respond (Failure (err_code err) (err_message err) (err_data err)
                    (js_field js "id"))))
  /\ (forall err,
        dispatchCall request js member js' = Raised (ThrowFault err) ->
        production = false ->
        handleRpcs fuel methods dontDefault request
        = ([dispatched],
           Respond (Failure (-32603) "Internal error" (serializeError err)
                      (js_field js "id"))))
  /\ (forall err,
        dispatchCall request js member js' = Raised (ThrowFault err) ->
        production = true ->
        handleRpcs fuel methods dontDefault request
        = ([dispatched; ConsoleError (serializeError err)],
           Respond (Failure (-32603) "Internal error" (JBool false)
                      (js_field js "id")))).
Proof.
  intros Hacc dispatched.
  pose proof (accepted_id _ _ _ _ _ _ _ Hacc) as Hid.
  rewrite (handleRpcs_accepted _ _ _ _ _ _ _ Hacc).
  split; [|split].
  - intros err ->. unfold respond. rewrite Hid. reflexivity.
  - intros err -> Hdev. unfold respond. rewrite Hid, Hdev. reflexivity.
  - intros err -> Hprod. unfold respond. rewrite Hid, Hprod. reflexivity.
Qed.

Lemma handler_fault_mapping_witness :
  sampleService (Some "production") (inr (greetCall "crash" 2))
  = ([Dispatch "greet" (Some (JObj PlainObject {[ "name" := JStr "crash" ]}));
      ConsoleError (sampleSerializeError (OtherError "Error" "boom"))],
     Respond (Failure (-32603) "Internal error" (JBool false) (Some (JNum 2))))
  /\ sampleService (Some "development") (inr (greetCall "crash" 2))
     = ([Dispatch "greet" (Some (JObj PlainObject {[ "name" := JStr "crash" ]}))],
        Respond (Failure (-32603) "Internal error"
                   (sampleSerializeError (OtherError "Error" "boom"))
                   (Some (JNum 2))))
  /\ sampleService None (inr (greetCall "nobody" 3))
     = ([Dispatch "greet" (Some (JObj PlainObject {[ "name" := JStr "nobody" ]}))],
        Respond (Failure 404 "No such user" (JStr "nobody") (Some (JNum 3)))).
Proof.
  assert (Hacc : forall env name id,
             @accepted sampleTv4 (sampleHost env (inr (greetCall name id))) 10
               sampleMethods [] rpcRequest (greetCall name id) (Own greetModule)
               (greetCall name id)).
  { intros env name id. repeat split; try reflexivity. discriminate. }
  split; [|split].
  - destruct (@handler_fault_mapping bracketFreeLodash sampleTv4
                (sampleHost (Some "production") (inr (greetCall "crash" 2)))
                10%nat sampleMethods [] rpcRequest _ _ _ (Hacc _ "crash" 2))
      as (_ & _ & Hprod).
    exact (Hprod (OtherError "Error" "boom") eq_refl eq_refl).
  - destruct (@handler_fault_mapping bracketFreeLodash sampleTv4
                (sampleHost (Some "development") (inr (greetCall "crash" 2)))
                10%nat sampleMethods [] rpcRequest _ _ _ (Hacc _ "crash" 2))
      as (_ & Hdev & _).
    exact (Hdev (OtherError "Error" "boom") eq_refl eq_refl).
  - destruct (@handler_fault_mapping bracketFreeLodash sampleTv4
                (sampleHost None (inr (greetCall "nobody" 3)))
                10%nat sampleMethods [] rpcRequest _ _ _ (Hacc _ "nobody" 3))
      as (Hrpc & _).
    exact (Hrpc (mkRpcError (JStr "nobody") "No such user" 404) eq_refl).
Defined.




(** ** Default injection *)

Section Defaults.
Context `{H : Host}.
Variable props : gmap string PropertySchema.

Lemma defaultProperty_none (js : json) (p : string) :
  defaultsOf props !! p = None -> defaultProperty props js p = js.
Proof.
  unfold defaultsOf, defaultProperty. rewrite lookup_omap.
  destruct (props !! p) as [ps|]; simpl; [|reflexivity].
  intros ->. reflexivity.
Qed.

Lemma defaultProperty_some (js : json) (p : string) (d : json) :
  defaultsOf props !! p = Some d ->
  defaultProperty props js p = if hasParam js p then js else setParam js p d.
Proof.
  unfold defaultsOf, defaultProperty. rewrite lookup_omap.
  destruct (props !! p) as [ps|]; simpl; [|discriminate].
  intros ->. reflexivity.
Qed.

Lemma defaultsAmong_lookup (keys : list string) (k : string) :
  defaultsAmong (defaultsOf props) keys !! k
  = if bool_decide (k ∈ keys) then defaultsOf props !! k else None.
Proof.
  induction keys as [|p keys IH]; cbn [defaultsAmong].
  - rewrite lookup_empty, bool_decide_eq_false_2; [reflexivity|].
    apply not_elem_of_nil.
  - destruct (decide (k = p)) as [->|Hne].
    + rewrite bool_decide_eq_true_2 by apply list_elem_of_here.
      destruct (defaultsOf props !! p) as [d|] eqn:Hd.
      * apply lookup_insert_eq.
      * rewrite IH. destruct (bool_decide (p ∈ keys)); reflexivity.
    + assert (Hmem : bool_decide (k ∈ p :: keys) = bool_decide (k ∈ keys)).
      { apply bool_decide_ext. rewrite elem_of_cons. tauto. }
      rewrite Hmem.
      destruct (defaultsOf props !! p) as [d|];
        [rewrite lookup_insert_ne by congruence|]; exact IH.
Qed.

Lemma defaultsAmong_keys :
  defaultsAmong (defaultsOf props) (Object_keys props) = defaultsOf props.
Proof.
  apply map_eq. intros k. rewrite defaultsAmong_lookup.
  destruct (defaultsOf props !! k) as [d|] eqn:Hd;
    [|destruct (bool_decide _); reflexivity].
  rewrite bool_decide_eq_true_2; [reflexivity|].
  unfold defaultsOf in Hd. rewrite lookup_omap in Hd.
  destruct (props !! k) as [ps|] eqn:Hk; [|discriminate].
  rewrite Object_keys_perm. apply list_elem_of_fmap.
  exists (k, ps). split; [reflexivity|]. apply elem_of_map_to_list, Hk.
Qed.

(** With [params] a plain object, the defaults of names that
    [Object.prototype] does not define and lodash does not refuse are added
    where [params] has no property of that name. *)
Lemma fold_defaults_present (c : objclass) (keys : list string) :
  (forall p d, p ∈ keys -> defaultsOf props !! p = Some d ->
               Object_prototype_has p = false /\ unsafeKey p = false) ->
  forall m pm,
    m !! "params" = Some (JObj PlainObject pm) ->
    fold_left (defaultProperty props) keys (JObj c m)
    = JObj c (<["params" := JObj PlainObject
                              (pm ∪ defaultsAmong (defaultsOf props) keys)]> m).
Proof.
  induction keys as [|p keys IH]; intros Hord m pm Hparams; simpl.
  - rewrite (right_id_L ∅ (∪)), insert_id by exact Hparams. reflexivity.
  - assert (Hord' : forall q d, q ∈ keys -> defaultsOf props !! q = Some d ->
                               Object_prototype_has q = false /\ unsafeKey q = false).
    { intros q d Hq. apply Hord. apply list_elem_of_further, Hq. }
    destruct (defaultsOf props !! p) as [d|] eqn:Hd.
    + rewrite (defaultProperty_some _ _ _ Hd).
      unfold hasParam. rewrite Hparams. cbn [js_has].
      destruct (Hord p d (list_elem_of_here _ _) Hd) as [Hproto Hsafe].
      rewrite Hproto, orb_false_r.
      destruct (pm !! p) as [v|] eqn:Hp.
      * rewrite bool_decide_eq_true_2 by eauto.
        rewrite (IH Hord' m pm Hparams). do 3 f_equal.
        apply map_eq. intros k. rewrite !lookup_union.
        destruct (decide (k = p)) as [->|Hne].
        -- rewrite Hp, lookup_insert_eq.
           destruct (defaultsAmong _ keys !! p); reflexivity.
        -- rewrite lookup_insert_ne by congruence. reflexivity.
      * rewrite bool_decide_eq_false_2 by (intros [? [=]]).
        cbn [setParam]. rewrite baseSet_params, Hparams, Hsafe.
        rewrite (IH Hord' _ (<[p := d]> pm)) by apply lookup_insert_eq.
        rewrite insert_insert_eq. do 3 f_equal.
        apply map_eq. intros k. rewrite !lookup_union.
        destruct (decide (k = p)) as [->|Hne].
        -- rewrite Hp, !lookup_insert_eq.
           destruct (defaultsAmong _ keys !! p); reflexivity.
        -- rewrite !lookup_insert_ne by congruence. reflexivity.
    + rewrite (defaultProperty_none _ _ Hd). apply IH; assumption.
Qed.

(** Without [params], nothing happens when no default is declared, and
    otherwise [params] becomes the object of the declared defaults. *)
Lemma fold_defaults_absent (c : objclass) (keys : list string) :
  (forall p d, p ∈ keys -> defaultsOf props !! p = Some d ->
               Object_prototype_has p = false /\ isIndex p = false
               /\ unsafeKey p = false) ->
  forall m,
    m !! "params" = None ->
    (defaultsAmong (defaultsOf props) keys = ∅ ->
     fold_left (defaultProperty props) keys (JObj c m) = JObj c m)
    /\ (defaultsAmong (defaultsOf props) keys <> ∅ ->
        fold_left (defaultProperty props) keys (JObj c m)
        = JObj c (<["params" := JObj PlainObject
                                  (defaultsAmong (defaultsOf props) keys)]> m)).
Proof.
  induction keys as [|p keys IH]; intros Hord m Hparams; simpl.
  - split; [reflexivity|congruence].
  - assert (Hord' : forall q d, q ∈ keys -> defaultsOf props !! q = Some d ->
                               Object_prototype_has q = false /\ isIndex q = false
                               /\ unsafeKey q = false).
    { intros q d Hq. apply Hord. apply list_elem_of_further, Hq. }
    destruct (defaultsOf props !! p) as [d|] eqn:Hd.
    + split; [intros Hempty; exfalso; revert Hempty; apply insert_non_empty|].
      intros _. rewrite (defaultProperty_some _ _ _ Hd).
      unfold hasParam. rewrite Hparams.
      cbn [setParam]. rewrite baseSet_params, Hparams.
      destruct (Hord p d (list_elem_of_here _ _) Hd) as (_ & -> & ->).
      rewrite (fold_defaults_present c keys) with (pm := {[ p := d ]});
        [|intros q d' Hq Hd'; destruct (Hord' q d' Hq Hd') as (? & _ & ?); auto
         |apply lookup_insert_eq].
      rewrite insert_insert_eq. do 3 f_equal.
      rewrite <- insert_union_singleton_l. reflexivity.
    + rewrite (defaultProperty_none _ _ Hd). apply IH; assumption.
Qed.

End Defaults.

(** Default injection for the names [Object.prototype] does not define
    and lodash's [set] does not refuse (and that are not array indices, for
    which lodash would create [params] as an array): each declared default
    is set where [params] has no property of that name, and what [params]
    has is left as it is. *)
Lemma defaultParams_ordinary `{H : Host} (combinedSchema : Schema) (c : objclass)
  (m : gmap string json) :
  let defaults := defaultsOf (orEmpty (properties combinedSchema)) in
  (forall p d, defaults !! p = Some d ->
               Object_prototype_has p = false /\ isIndex p = false
               /\ unsafeKey p = false) ->
  (forall pm, m !! "params" = Some (JObj PlainObject pm) ->
     defaultParams combinedSchema (JObj c m)
     = JObj c (<["params" := JObj PlainObject (pm ∪ defaults)]> m))
  /\ (m !! "params" = None -> defaults <> ∅ ->
      defaultParams combinedSchema (JObj c m)
      = JObj c (<["params" := JObj PlainObject defaults]> m))
  /\ (m !! "params" = None -> defaults = ∅ ->
      defaultParams combinedSchema (JObj c m) = JObj c m).
Proof.
  intros defaults Hord. subst defaults. unfold defaultParams.
  set (props := orEmpty (properties combinedSchema)) in *.
  pose proof (defaultsAmong_keys props) as Hkeys.
  split; [|split].
  - intros pm Hparams.
    rewrite (fold_defaults_present props c (Object_keys props)) with (pm := pm);
      [rewrite Hkeys; reflexivity| |exact Hparams].
    intros p d _ Hd. destruct (Hord p d Hd) as (? & _ & ?). auto.
  - intros Hparams Hsome.
    destruct (fold_defaults_absent props c (Object_keys props)
                (fun p d _ Hd => Hord p d Hd) m Hparams) as [_ Hfold].
    rewrite Hfold, Hkeys by (rewrite Hkeys; exact Hsome). reflexivity.
  - intros Hparams Hnone.
    destruct (fold_defaults_absent props c (Object_keys props)
                (fun p d _ Hd => Hord p d Hd) m Hparams) as [Hfold _].
    apply Hfold. rewrite Hkeys. exact Hnone.
Qed.

(** The step is skipped for a method listed in [dontDefault] and for a
    member without [paramsSchema]. *)
Lemma defaultStep_skipped `{T : Tv4} `{H : Host} (fuel : nat) (member : Member)
  (dontDefault : list string) (method : option json) (js : json) :
  member_paramsSchema member = None \/ notListed dontDefault method = false ->
  defaultStep fuel member dontDefault method js = Return js.
Proof.
  unfold defaultStep. intros [-> | Hlisted]; [reflexivity|].
  destruct (member_paramsSchema member); [|reflexivity].
  rewrite Hlisted. reflexivity.
Qed.

(** C4, at requests the code treats otherwise.  The schema of [render]
    declares the default ["x"] for its property [toString], and the request
    comes with [params = {}], which has no property [toString]; yet nothing
    is injected, because [get(js, ['params', 'toString'])] finds the function
    every object inherits; the handler is called with [params] still empty.
    The schema of [inspect] declares defaults for [valueOf] and [toString],
    and the request comes without [params]; the first default is injected,
    which creates [params], and the second is not. *)
Theorem inherited_name_not_defaulted :
  defaultsOf (orEmpty (properties toStringSchema)) !! "toString" = Some (JStr "x")
  /\ js_field renderCall "params" = Some (JObj PlainObject ∅)
  /\ @defaultStep sampleTv4 (sampleHost None (inr renderCall)) 10
       (Own renderModule) [] (Some (JStr "render")) renderCall
     = Return renderCall
  /\ fst (sampleService None (inr renderCall))
     = [Dispatch "render" (Some (JObj PlainObject ∅))]
  /\ defaultsOf (orEmpty (properties inheritedNamesSchema))
     = {[ "valueOf" := JStr "y"; "toString" := JStr "x" ]}
  /\ js_field (envelope "inspect" None 5) "params" = None
  /\ fst (sampleService None (inr (envelope "inspect" None 5)))
     = [Dispatch "inspect" (Some (JObj PlainObject {[ "valueOf" := JStr "y" ]}))].
Proof. repeat split; reflexivity. Qed.

(** * Further properties of the pipeline *)

Section PipelineEdges.
Context `{L : Lodash} `{T : Tv4} `{H : Host}.

Lemma dispatches_console (events : list Event) (error : json) :
  dispatches (events ++ [ConsoleError error])%list = dispatches events.
Proof.
  induction events as [|[e|name params] events IH]; simpl; [reflexivity| |];
    rewrite IH; reflexivity.
Qed.

Lemma dispatches_respond (events : list Event) (js : json)
  (outcome : Outcome (option json)) :
  dispatches (fst (respond events js outcome)) = dispatches events.
Proof.
  unfold respond.
  destruct outcome as [result|[err|err]|]; [| | |reflexivity];
    destruct (js_read js "id"); try reflexivity;
    destruct production; try reflexivity; apply dispatches_console.
Qed.

Lemma tryBlock_events (fuel : nat) (methods : gmap string MethodModule)
  (dontDefault : list string) (request : Request) (js js' : json)
  (events : list Event) (outcome : Outcome (option json)) :
  tryBlock fuel methods dontDefault request js = (events, js', outcome) ->
  events = []
  \/ exists member,
       events = [Dispatch (toPropertyKey (js_field js "method"))
                   (js_field js' "params")]
       /\ js <> JNull
       /\ validateResult js requestSchema = None
       /\ methods_get methods (toPropertyKey (js_field js "method")) = Some member
       /\ defaultStep fuel member dontDefault (js_field js "method") js = Return js'
       /\ validateParams member js' = None.
Proof.
  unfold tryBlock.
  destruct (validateResult js requestSchema) eqn:Hvalid; [intros [= <- _ _]; auto|].
  destruct (js_read js "method") as [method| |] eqn:Hmethod;
    [|intros [= <- _ _]; auto..].
  assert (Hjs : js <> JNull) by (intros ->; discriminate).
  rewrite (js_read_field _ _ Hjs) in Hmethod. injection Hmethod as <-.
  destruct (methods_get methods _) as [member|] eqn:Hmember;
    [|intros [= <- _ _]; auto].
  destruct (defaultStep fuel member dontDefault _ js) as [js1| |] eqn:Hdefault;
    [|intros [= <- _ _]; auto..].
  destruct (validateParams member js1) eqn:Hparams; intros [= <- <- _]; auto.
  right. exists member. auto 10.
Qed.

End PipelineEdges.

(** X1: The handler is called at most once per request, and only for a request
    that passed every check: whenever the pipeline calls a handler, the body
    parsed, the envelope and the parameters were valid, and the method was
    found. *)
Theorem dispatched_only_when_accepted `{L : Lodash} `{T : Tv4} `{H : Host}
  (fuel : nat) (methods : gmap string MethodModule) (dontDefault : list string)
  (request : Request) :
  (dispatches (fst (handleRpcs fuel methods dontDefault request)) <= 1)%nat
  /\ (dispatches (fst (handleRpcs fuel methods dontDefault request)) = 1%nat ->
      exists js member js',
        accepted fuel methods dontDefault request js member js').
Proof.
  unfold handleRpcs.
  destruct (bool_decide (contentType request = Some "application/json")) eqn:Hct;
    simpl; [|split; [lia|discriminate]].
  apply bool_decide_eq_true_1 in Hct.
  destruct (micro_json (body request)) as [err|js] eqn:Hparse.
  - split; [simpl; lia|discriminate].
  - destruct (tryBlock fuel methods dontDefault request js) as [[events js'] outcome]
      eqn:Htry.
    rewrite dispatches_respond.
    destruct (tryBlock_events _ _ _ _ _ _ _ _ Htry)
      as [->|(member & -> & Hjs & Hvalid & Hmember & Hdefault & Hparams)].
    + split; [simpl; lia|discriminate].
    + split; [simpl; lia|]. intros _. exists js, member, js'.
      repeat split; assumption.
Qed.

(** X2: A body that parses to [null] gets no response: whatever the validator
    says about it, the [catch] block's own read of [js.id] throws a
    [TypeError], the error leaves the middleware, and no handler is called. *)
Theorem null_body_escapes `{L : Lodash} `{T : Tv4} `{H : Host}
  (fuel : nat) (methods : gmap string MethodModule) (dontDefault : list string)
  (request : Request) :
  contentType request = Some "application/json" ->
  micro_json (body request) = inr JNull ->
  (exists msg,
      snd (handleRpcs fuel methods dontDefault request) = Escapes (TypeError msg))
  /\ dispatches (fst (handleRpcs fuel methods dontDefault request)) = 0%nat.
Proof.
  intros Hct Hparse. rewrite (handleRpcs_parsed _ _ _ _ _ Hct Hparse).
  unfold tryBlock. destruct (validateResult JNull requestSchema); simpl.
  - split; [eexists|]; reflexivity.
  - destruct production; (split; [eexists|]; reflexivity).
Qed.

Lemma null_body_escapes_witness :
  exists msg, snd (sampleService None (inr JNull)) = Escapes (TypeError msg).
Proof.
  apply (@null_body_escapes bracketFreeLodash sampleTv4
           (sampleHost None (inr JNull)) 10%nat sampleMethods [] rpcRequest
           eq_refl eq_refl).
Defined.

(** X3: A parsed body the envelope schema rejects is answered with [-32600],
    ["Invalid request"], the flattened error as data and whatever [id] the
    body has ([undefined] for a body without one, or one that is not an
    object); the method is not looked up and no handler is called. *)
Theorem invalid_request_response `{L : Lodash} `{T : Tv4} `{H : Host}
  (fuel : nat) (methods : gmap string MethodModule) (dontDefault : list string)
  (request : Request) (js : json) (error : ValidationError) :
  contentType request = Some "application/json" ->
  micro_json (body request) = inr js ->
  js <> JNull ->
  validateResult js requestSchema = Some error ->
  handleRpcs fuel methods dontDefault request
  = ([], Respond (Failure (-32600) "Invalid request"
                    (JObj PlainObject (_makeHashOutOfValidateErrors ∅ error))
                    (js_field js "id"))).
Proof.
  intros Hct Hparse Hjs Hinvalid.
  rewrite (handleRpcs_parsed _ _ _ _ _ Hct Hparse).
  unfold tryBlock. rewrite Hinvalid. unfold respond.
  rewrite (js_read_field _ _ Hjs). reflexivity.
Qed.

Lemma invalid_request_response_witness :
  sampleService None (inr (JNum 5))
  = ([], Respond (Failure (-32600) "Invalid request"
                    (JObj PlainObject {[ "method" := JStr "method is required" ]})
                    None)).
Proof.
  exact (@invalid_request_response bracketFreeLodash sampleTv4
           (sampleHost None (inr (JNum 5))) 10%nat sampleMethods [] rpcRequest
           (JNum 5) (requiredError "method") eq_refl eq_refl
           ltac:(discriminate) eq_refl).
Defined.

Lemma dispatched_only_when_accepted_witness :
  exists js member js',
    @accepted sampleTv4 (sampleHost None (inr (greetCall "ann" 4))) 10
      sampleMethods [] rpcRequest js member js'.
Proof.
  apply (@dispatched_only_when_accepted bracketFreeLodash sampleTv4
           (sampleHost None (inr (greetCall "ann" 4))) 10%nat sampleMethods []
           rpcRequest).
  reflexivity.
Defined.

(** ** Default injection only adds declared defaults *)

Section OnlyAdds.
Context `{H : Host}.
Variable props : gmap string PropertySchema.

Lemma fold_only_adds (c c' : objclass) (keys : list string) :
  forall m pm,
    m !! "params" = Some (JObj c' pm) ->
    exists pm',
      fold_left (defaultProperty props) keys (JObj c m)
      = JObj c (<["params" := JObj c' pm']> m)
      /\ extendsWithDefaults props pm pm'.
Proof.
  induction keys as [|p keys IH]; intros m pm Hparams; simpl.
  - exists pm. split; [rewrite insert_id by exact Hparams; reflexivity|].
    split; [reflexivity|auto].
  - destruct (defaultsOf props !! p) as [d|] eqn:Hd.
    + rewrite (defaultProperty_some _ _ _ _ Hd).
      destruct (hasParam (JObj c m) p) eqn:Hhas; [apply IH, Hparams|].
      assert (Hown : pm !! p = None).
      { unfold hasParam in Hhas. rewrite Hparams in Hhas.
        destruct (pm !! p) eqn:Hp; [|reflexivity].
        destruct c'; cbn [js_has] in Hhas; rewrite Hp in Hhas;
          rewrite bool_decide_eq_true_2 in Hhas by eauto; discriminate. }
      cbn [setParam]. rewrite baseSet_params, Hparams.
      destruct (unsafeKey p);
        [rewrite insert_id by exact Hparams; apply IH, Hparams|].
      destruct (IH (<["params" := JObj c' (<[p := d]> pm)]> m) (<[p := d]> pm))
        as (pm' & Hfold & Hsub & Hnew); [apply lookup_insert_eq|].
      exists pm'. split; [rewrite Hfold, insert_insert_eq; reflexivity|].
      split.
      * etrans; [apply insert_subseteq, Hown|exact Hsub].
      * intros k v Hk. destruct (Hnew k v Hk) as [Hin|Hdef]; [|auto].
        destruct (decide (k = p)) as [->|Hne].
        -- rewrite lookup_insert_eq in Hin. injection Hin as <-. auto.
        -- rewrite lookup_insert_ne in Hin by congruence. auto.
    + rewrite (defaultProperty_none _ _ _ Hd). apply IH, Hparams.
Qed.

End OnlyAdds.

(** X5: Default injection leaves everything but [params] alone: every other
    field of the parsed body ([id], [method], [jsonrpc], ...) is what it was,
    and a body that is not an object is not changed at all. *)
Theorem defaultParams_keeps_envelope `{H : Host} (combinedSchema : Schema)
  (js : json) :
  (forall k, k <> "params" ->
     js_field (defaultParams combinedSchema js) k = js_field js k)
  /\ ((forall c m, js <> JObj c m) -> defaultParams combinedSchema js = js).
Proof.
  split.
  - intros k Hk. unfold defaultParams.
    destruct (keeps_fold (orEmpty (properties combinedSchema))
                (Object_keys (orEmpty (properties combinedSchema))) js)
      as [_ Hfield].
    apply Hfield, Hk.
  - intros Hprim. unfold defaultParams.
    induction (Object_keys (orEmpty (properties combinedSchema))) as [|p keys IH];
      [reflexivity|]. simpl.
    assert (Hstep : defaultProperty (orEmpty (properties combinedSchema)) js p = js).
    { unfold defaultProperty.
      destruct (_ !! p) as [ps|]; [|reflexivity].
      destruct (default ps); [|reflexivity].
      destruct js; try reflexivity. exfalso. eapply Hprim. reflexivity. }
    rewrite Hstep. exact IH.
Qed.

Lemma defaultParams_keeps_envelope_witness :
  js_field (@defaultParams (sampleHost None (inr JNull)) greetSchema
              (envelope "greet" None 9)) "id" = Some (JNum 9)
  /\ @defaultParams (sampleHost None (inr JNull)) greetSchema (JStr "greet")
     = JStr "greet".
Proof.
  destruct (@defaultParams_keeps_envelope (sampleHost None (inr JNull)) greetSchema
              (envelope "greet" None 9)) as [Hfield _].
  destruct (@defaultParams_keeps_envelope (sampleHost None (inr JNull)) greetSchema
              (JStr "greet")) as [_ Hprim].
  split.
  - rewrite Hfield by discriminate. reflexivity.
  - apply Hprim. discriminate.
Defined.

(** X6: Default injection never overwrites and never removes: when [params] is
    an object, it is afterwards an object of the same kind that has every
    property it had, with the value it had, and any property it has
    in addition carries the default declared for that name. *)
Theorem defaultParams_only_adds `{H : Host} (combinedSchema : Schema)
  (c c' : objclass) (m pm : gmap string json) :
  m !! "params" = Some (JObj c' pm) ->
  exists pm',
    defaultParams combinedSchema (JObj c m) = JObj c (<["params" := JObj c' pm']> m)
    /\ pm ⊆ pm'
    /\ forall k v, pm' !! k = Some v ->
         pm !! k = Some v
         \/ defaultsOf (orEmpty (properties combinedSchema)) !! k = Some v.
Proof.
  intros Hparams. unfold defaultParams.
  destruct (fold_only_adds (orEmpty (properties combinedSchema)) c c'
              (Object_keys (orEmpty (properties combinedSchema))) m pm Hparams)
    as (pm' & Hfold & Hsub & Hnew).
  exists pm'. auto.
Qed.

Lemma defaultParams_only_adds_witness :
  exists pm',
    @defaultParams (sampleHost None (inr JNull)) greetSchema (greetCall "ann" 4)
    = JObj PlainObject (<["params" := JObj PlainObject pm']> annFields)
    /\ ({[ "name" := JStr "ann" ]} : gmap string json) ⊆ pm'.
Proof.
  destruct (@defaultParams_only_adds (sampleHost None (inr JNull)) greetSchema
              PlainObject PlainObject annFields {[ "name" := JStr "ann" ]} eq_refl)
    as (pm' & Hresult & Hsub & _).
  exists pm'. split; [exact Hresult|exact Hsub].
Defined.

(** ** The schema composer: unregistered references and resolved schemas *)

Section ComposerEdges.
Context `{T : Tv4}.

Lemma reduceM_app {A B} (f : B -> A -> Outcome B) (xs ys : list A) (init : B) :
  reduceM f (xs ++ ys)%list init = (prev ← reduceM f xs init; reduceM f ys prev).
Proof.
  revert init. induction xs as [|x xs IH]; intros init; simpl; [reflexivity|].
  destruct (f init x) as [prev| |]; simpl; [apply IH|reflexivity..].
Qed.

Lemma combineRef_unregistered (resolve : Schema -> Outcome Schema)
  (prev : gmap string PropertySchema) (curr : AllOfEntry) :
  getSchema (toKey (ref curr)) = None ->
  combineRef resolve prev curr
  = Throw (ThrowFault (TypeError "Cannot read property 'allOf' of undefined")).
Proof. intros Hcurr. unfold combineRef. rewrite Hcurr. reflexivity. Qed.

Lemma combineProperties_again (resolved : list Schema)
  (init : gmap string PropertySchema) :
  combineProperties resolved (combineProperties resolved init)
  = combineProperties resolved init.
Proof.
  apply map_eq. intros k. rewrite !combineProperties_lookup.
  destruct (lastDeclaring k resolved); reflexivity.
Qed.

End ComposerEdges.

(** X8: An [allOf] entry whose reference is not registered (an inline subschema
    without [$ref] among them, unless a schema is registered under the name
    ["undefined"]) makes the composer throw a [TypeError], once the entries
    before it have been resolved. *)
Theorem unregistered_reference_throws `{T : Tv4} (depth : nat) (schema : Schema)
  (pre post : list AllOfEntry) (curr : AllOfEntry) (resolved : list Schema) :
  allOf schema = Some (pre ++ curr :: post)%list ->
  Forall2 (resolvesTo depth) pre resolved ->
  getSchema (toKey (ref curr)) = None ->
  forall fuel, (S depth <= fuel)%nat ->
    exists msg,
      _resolveAndCombineAllOfs fuel schema = Throw (ThrowFault (TypeError msg)).
Proof.
  intros Hall Hpre Hcurr [|fuel] Hfuel; [lia|].
  rewrite (resolve_allOf _ _ _ Hall), reduceM_app.
  rewrite (reduce_resolved _ _ _ Hpre) by lia.
  eexists. cbn [reduceM mbind Outcome_bind].
  rewrite (combineRef_unregistered _ _ _ Hcurr). reflexivity.
Qed.

Lemma unregistered_reference_throws_witness :
  exists msg,
    @_resolveAndCombineAllOfs sampleTv4 3 inlineAllOfSchema
    = Throw (ThrowFault (TypeError msg)).
Proof.
  apply (@unregistered_reference_throws sampleTv4 0 inlineAllOfSchema
           [ {| ref := Some "base" |} ] [] {| ref := None |} [baseSchema]);
    [reflexivity| |reflexivity|lia].
  constructor; [|constructor].
  exists baseSchema. split; [reflexivity|]. intros fuel _. apply resolve_plain.
  reflexivity.
Defined.

(** X9: When the composer throws for a method's schema, every request for that
    method that is otherwise well-formed is answered with [-32603]: the
    parameters are not validated and the handler is not called. *)
Theorem composer_fault_is_internal_error `{L : Lodash} `{T : Tv4} `{H : Host}
  (fuel : nat) (methods : gmap string MethodModule) (dontDefault : list string)
  (request : Request) (js : json) (member : Member) (schema : Schema)
  (err : Fault) :
  contentType request = Some "application/json" ->
  micro_json (body request) = inr js ->
  js <> JNull ->
  validateResult js requestSchema = None ->
  methods_get methods (toPropertyKey (js_field js "method")) = Some member ->
  member_paramsSchema member = Some schema ->
  notListed dontDefault (js_field js "method") = true ->
  _resolveAndCombineAllOfs fuel schema = Throw (ThrowFault err) ->
  handleRpcs fuel methods dontDefault request
  = (if production then [ConsoleError (serializeError err)] else [],
     Respond (Failure (-32603) "Internal error"
                (if production then JBool false else serializeError err)
                (js_field js "id"))).
Proof.
  intros Hct Hparse Hjs Hvalid Hmember Hschema Hlisted Hthrow.
  rewrite (handleRpcs_parsed _ _ _ _ _ Hct Hparse).
  unfold tryBlock.
  rewrite Hvalid, (js_read_field _ _ Hjs), Hmember.
  unfold defaultStep. rewrite Hschema, Hlisted, Hthrow. simpl.
  unfold respond. rewrite (js_read_field _ _ Hjs).
  destruct production; reflexivity.
Qed.

Lemma composer_fault_is_internal_error_witness :
  fst (@handleRpcs bracketFreeLodash sampleTv4
         (sampleHost None (inr (envelope "inline" (Some emptyObject) 6))) 10
         {[ "inline" := inlineModule ]} [] rpcRequest) = []
  /\ exists data,
       snd (@handleRpcs bracketFreeLodash sampleTv4
              (sampleHost None (inr (envelope "inline" (Some emptyObject) 6))) 10
              {[ "inline" := inlineModule ]} [] rpcRequest)
       = Respond (Failure (-32603) "Internal error" data (Some (JNum 6))).
Proof.
  pose proof (@composer_fault_is_internal_error bracketFreeLodash sampleTv4
                (sampleHost None (inr (envelope "inline" (Some emptyObject) 6)))
                10%nat {[ "inline" := inlineModule ]} [] rpcRequest
                (envelope "inline" (Some emptyObject) 6) (Own inlineModule)
                inlineAllOfSchema
                (TypeError "Cannot read property 'allOf' of undefined")
                eq_refl eq_refl ltac:(discriminate) eq_refl eq_refl eq_refl
                eq_refl eq_refl) as Hresponse.
  rewrite Hresponse. split; [reflexivity|]. eexists. reflexivity.
Defined.

(** X10: A resolved schema keeps its [allOf] and its other keywords, and
    resolving it again changes nothing. *)
Theorem resolve_idempotent `{T : Tv4} (depth : nat) (schema : Schema) :
  resolvable depth schema ->
  forall fuel, (depth <= fuel)%nat ->
    exists resolvedSchema,
      _resolveAndCombineAllOfs fuel schema = Return resolvedSchema
      /\ allOf resolvedSchema = allOf schema
      /\ keywords resolvedSchema = keywords schema
      /\ _resolveAndCombineAllOfs fuel resolvedSchema = Return resolvedSchema.
Proof.
  intros Hres fuel Hfuel.
  destruct (allOf schema) as [refs|] eqn:Hall.
  - destruct depth as [|depth]; [simpl in Hres; rewrite Hall in Hres; contradiction|].
    pose proof Hres as Hres'. simpl in Hres'. rewrite Hall in Hres'.
    destruct (refs_resolved depth refs (resolvable_total depth) Hres')
      as [resolved Hrefs].
    set (resolvedSchema :=
           mkSchema (allOf schema)
             (Some (combineProperties resolved (orEmpty (properties schema))))
             (keywords schema)).
    exists resolvedSchema.
    split; [apply (resolve_combined _ _ _ _ Hall Hrefs), Hfuel|].
    split; [exact Hall|split; [reflexivity|]].
    assert (Hall' : allOf resolvedSchema = Some refs) by exact Hall.
    rewrite (resolve_combined depth resolvedSchema refs resolved Hall' Hrefs fuel Hfuel).
    unfold resolvedSchema. cbn [allOf properties keywords orEmpty].
    rewrite combineProperties_again. reflexivity.
  - exists schema. rewrite (resolve_plain _ _ Hall). auto.
Qed.

Lemma resolve_idempotent_witness :
  exists resolvedSchema,
    @_resolveAndCombineAllOfs sampleTv4 4 derivedSchema = Return resolvedSchema
    /\ @_resolveAndCombineAllOfs sampleTv4 4 resolvedSchema = Return resolvedSchema.
Proof.
  destruct (@resolve_idempotent sampleTv4 1 derivedSchema) with (fuel := 4%nat)
    as (resolvedSchema & Hfirst & _ & _ & Hagain).
  - simpl. repeat constructor.
  - lia.
  - exists resolvedSchema. split; assumption.
Defined.

(** ** The flattener: what is kept and what is replaced *)

Section FlattenerEdges.
Context `{L : Lodash}.

Lemma baseSet_keeps (path : list string) (value : json) :
  forall (object : gmap string json) (k : string),
    is_Some (object !! k) -> is_Some (baseSet object path value !! k).
Proof.
  assert (Hins : forall (object : gmap string json) k k' v,
             is_Some (object !! k) -> is_Some (<[k' := v]> object !! k)).
  { intros object k k' v Hk. destruct (decide (k' = k)) as [->|Hne].
    - rewrite lookup_insert_eq. eauto.
    - rewrite lookup_insert_ne by exact Hne. exact Hk. }
  destruct path as [|k' [|k'' rest]]; intros object k Hk; cbn [baseSet].
  - exact Hk.
  - destruct (unsafeKey k'); [exact Hk|apply Hins, Hk].
  - destruct (unsafeKey k'); [exact Hk|].
    destruct (object !! k') as [[| | | |c nested]|]; try apply Hins, Hk.
    destruct (Object_prototype_has k'); [exact Hk|apply Hins, Hk].
Qed.

Lemma fold_setError_keeps (nodes : list ValidationError) :
  forall (acc : gmap string json) (k : string),
    is_Some (acc !! k) -> is_Some (fold_left setError nodes acc !! k).
Proof.
  induction nodes as [|e nodes IH]; intros acc k Hk; simpl; [exact Hk|].
  apply IH. unfold setError, set. apply baseSet_keeps, Hk.
Qed.

End FlattenerEdges.

(** X11: Flattening never drops an entry: every name the accumulator has an entry
    for still has one in the result (possibly overwritten); and when the
    path of the tree's root is a single property name other than
    [__proto__], [constructor] and [prototype], which lodash's [set]
    refuses, the result has an entry under it, so that the data of the
    error response is not the empty object. *)
Theorem flatten_keeps_entries `{L : Lodash} (acc : gmap string json)
  (e : ValidationError) :
  (forall k, is_Some (acc !! k) ->
             is_Some (_makeHashOutOfValidateErrors acc e !! k))
  /\ (directKey e = true ->
      unsafeKey (toKey (errorPath e)) = false ->
      is_Some (_makeHashOutOfValidateErrors acc e !! toKey (errorPath e))).
Proof.
  rewrite flatten_preorder. split.
  - intros k Hk. apply fold_setError_keeps, Hk.
  - intros Hd Hsafe. destruct e as [m p d s subs]. cbn [preorder fold_left].
    apply fold_setError_keeps. rewrite setError_direct_safe by assumption.
    rewrite lookup_insert_eq. eauto.
Qed.

Lemma flatten_keeps_entries_witness :
  is_Some (@_makeHashOutOfValidateErrors bracketFreeLodash
             {[ "title" := JStr "kept" ]} sampleErrorTree !! "title")
  /\ is_Some (@_makeHashOutOfValidateErrors bracketFreeLodash ∅ sampleErrorTree !! "").
Proof.
  split.
  - apply (@flatten_keeps_entries bracketFreeLodash). rewrite lookup_singleton_eq.
    eexists. reflexivity.
  - apply (proj2 (@flatten_keeps_entries bracketFreeLodash ∅ sampleErrorTree));
      reflexivity.
Defined.

(** X12: An error on a nested field replaces the message of its parent: when a
    node is filed under the name [a] and its sub-error under the path
    [a.b], neither [a] nor [b] being one of the keys lodash's [set] refuses
    ([__proto__], [constructor], [prototype]), the result holds under [a]
    the object [{b: message of the sub-error}] (an array when [b] is an
    index), and the node's own message is gone. *)
Theorem nested_error_replaces_parent_message `{L : Lodash}
  (acc : gmap string json) (msg : string) (p : ErrorParams) (d s a b : string)
  (child : ValidationError) :
  let parent := mkValidationError msg p d s (Some [child]) in
  errorPath parent = Some a ->
  directKey parent = true ->
  subErrors child = None \/ subErrors child = Some [] ->
  castPath (errorPath child) (<[a := JStr msg]> acc) = [a; b] ->
  unsafeKey a = false ->
  unsafeKey b = false ->
  _makeHashOutOfValidateErrors acc parent !! a
  = Some (JObj (if isIndex b then ArrayObject else PlainObject)
               {[ b := JStr (message child) ]}).
Proof.
  intros parent Hpath Hdirect Hleaf Hchild Ha Hb.
  assert (Hparent : setError acc parent = <[a := JStr msg]> acc).
  { rewrite setError_direct_safe; rewrite ?Hpath; [reflexivity|exact Hdirect|exact Ha]. }
  assert (Hflat : _makeHashOutOfValidateErrors acc parent
                  = setError (setError acc parent) child).
  { unfold parent. cbn [_makeHashOutOfValidateErrors subErrors fold_left].
    destruct child as [m' p' d' s' subs']; cbn [subErrors] in Hleaf.
    destruct Hleaf as [-> | ->]; reflexivity. }
  rewrite Hflat, Hparent. unfold setError at 1, set. rewrite Hchild.
  cbn [baseSet]. rewrite Ha, Hb, lookup_insert_eq, lookup_insert_eq. reflexivity.
Qed.

Lemma nested_error_replaces_parent_message_witness :
  @_makeHashOutOfValidateErrors bracketFreeLodash ∅
    (mkValidationError "address is invalid" {| key := None |} "/address"
       "/properties/address/anyOf" (Some [typeError "address/street"]))
  !! "address"
  = Some (JObj PlainObject
            {[ "street" := JStr "Invalid type: number (expected string)" ]}).
Proof.
  apply (@nested_error_replaces_parent_message bracketFreeLodash ∅
           "address is invalid" {| key := None |} "/address"
           "/properties/address/anyOf" "address" "street"
           (typeError "address/street"));
    try reflexivity.
  left. reflexivity.
Defined.

(** * The JWT middleware and the client *)

Lemma replaceFirst_unfold (pat rep s : string) :
  replaceFirst pat rep s
  = if is_prefix pat s
    then (rep ++ string_drop (String.length pat) s)%string
    else match s with
         | EmptyString => EmptyString
         | String a s' => String a (replaceFirst pat rep s')
         end.
Proof. destruct s; reflexivity. Qed.

Lemma string_drop_app (pat s : string) :
  string_drop (String.length pat) (pat ++ s)%string = s.
Proof. induction pat as [|a pat IH]; simpl; [destruct s; reflexivity|exact IH]. Qed.

Lemma replaceFirst_prefix (pat s : string) :
  replaceFirst pat "" (pat ++ s)%string = s.
Proof.
  rewrite replaceFirst_unfold, is_prefix_app, string_drop_app. reflexivity.
Qed.

Lemma replaceFirst_absent (pat rep s : string) :
  contains pat s = false -> replaceFirst pat rep s = s.
Proof.
  induction s as [|a s IH]; simpl; intros Hno.
  - apply orb_false_iff in Hno as [-> _]. reflexivity.
  - apply orb_false_iff in Hno as [-> Hno]. rewrite IH by exact Hno. reflexivity.
Qed.

(** X16: The client's header and the server's reading of it agree: for the
    header [jwtRpc] builds from a non-empty jwt, [addJwt] verifies exactly
    that jwt (also when the jwt itself contains ["Bearer "]), sets [req.jwt]
    to the payload when verification succeeds, and calls [fn] either way. *)
Theorem jwt_round_trip `{J : Jsonwebtoken} `{C : ClientHost} {R : Type}
  (secret token : string) (fn : AuthRequest -> R) (req : AuthRequest) :
  token <> "" ->
  authorization req = bearer (getJwt (Some (Token token))) ->
  addJwt secret fn req
  = match jwt_verify token secret with
    | inr payload => fn {| authorization := authorization req; jwt := Some payload |}
    | inl _ => fn req
    end.
Proof.
  intros Htoken Hheader.
  assert (Hne : String.eqb token "" = false) by (apply String.eqb_neq, Htoken).
  assert (Hbearer : bearer (getJwt (Some (Token token)))
                    = Some ("Bearer " ++ token)%string).
  { unfold getJwt. rewrite Hne. unfold bearer. rewrite Hne. reflexivity. }
  unfold addJwt. rewrite Hheader, Hbearer, replaceFirst_prefix. reflexivity.
Qed.

Lemma jwt_round_trip_witness :
  @addJwt sampleJsonwebtoken _ "secret" jwt
    {| authorization := Some "Bearer good"; jwt := None |}
  = Some (JObj PlainObject {[ "sub" := JStr "ann" ]}).
Proof.
  apply (@jwt_round_trip sampleJsonwebtoken sampleClient _ "secret" "good" jwt
           {| authorization := Some "Bearer good"; jwt := None |});
    [discriminate|reflexivity].
Defined.

(** X17: [addJwt] never rejects a request: without the header, [fn] gets the
    request as it came; and a header without ["Bearer "] is verified whole,
    so that a bare token is accepted as well. *)
Theorem addJwt_bare_or_missing `{J : Jsonwebtoken} {R : Type}
  (secret : string) (fn : AuthRequest -> R) (req : AuthRequest) :
  (authorization req = None -> addJwt secret fn req = fn req)
  /\ (forall header,
        authorization req = Some header ->
        contains "Bearer " header = false ->
        addJwt secret fn req
        = match jwt_verify header secret with
          | inr payload =>
              fn {| authorization := authorization req; jwt := Some payload |}
          | inl _ => fn req
          end).
Proof.
  unfold addJwt. split.
  - intros ->. reflexivity.
  - intros header -> Hbare. rewrite (replaceFirst_absent _ _ _ Hbare). reflexivity.
Qed.

Lemma addJwt_bare_or_missing_witness :
  @addJwt sampleJsonwebtoken _ "secret" jwt {| authorization := None; jwt := None |}
  = None
  /\ @addJwt sampleJsonwebtoken _ "secret" jwt
       {| authorization := Some "good"; jwt := None |}
     = Some (JObj PlainObject {[ "sub" := JStr "ann" ]}).
Proof.
  split.
  - apply (@addJwt_bare_or_missing sampleJsonwebtoken). reflexivity.
  - apply (proj2 (@addJwt_bare_or_missing sampleJsonwebtoken _ "secret" jwt
                    {| authorization := Some "good"; jwt := None |}) "good");
      reflexivity.
Defined.

Lemma is2xx_http (status : Z) :
  100 <= status <= 599 ->
  is2xx status = (200 <=? status) && (status <=? 299).
Proof.
  intros Hrange.
  assert (Hall : forallb (fun n => Bool.eqb (is2xx n) ((200 <=? n) && (n <=? 299)))
                   (seqZ 100 500) = true) by (vm_compute; reflexivity).
  rewrite forallb_forall in Hall.
  apply Bool.eqb_prop, Hall, list_elem_of_In, elem_of_seqZ. lia.
Qed.

(** X18: For an HTTP status, [rpc] returns the parsed body of a 2xx reply (or its
    parse error), and for any other status the made-up error [-32603] that
    carries the request's id and the reply's [url], [status] and
    [statusText], without reading the body. *)
Theorem rpc_http_status `{C : ClientHost} (url method : string)
  (params options : option json) (id : string) (response : FetchResponse) :
  fetch url (fetchInit (requestBody method params id) options) = inr response ->
  100 <= resp_status response <= 599 ->
  rpc url method params options id
  = if (200 <=? resp_status response) && (resp_status response <=? 299)
    then resp_json response
    else inr (httpErrorResponse id response).
Proof.
  intros Hfetch Hstatus. unfold rpc. rewrite Hfetch, (is2xx_http _ Hstatus).
  reflexivity.
Qed.

Lemma rpc_http_status_witness :
  @rpc sampleClient "down" "greet" None None "id-1"
  = inr (httpErrorResponse "id-1" downResponse).
Proof.
  refine (@rpc_http_status sampleClient "down" "greet" None None "id-1"
            downResponse eq_refl _).
  simpl. lia.
Defined.



(** * The method loader *)

Lemma bind_Return {A B} (m : Outcome A) (k : A -> Outcome B) (r : B) :
  (x ← m; k x) = Return r -> exists a, m = Return a /\ k a = Return r.
Proof. destruct m as [a| |]; simpl; [eauto|discriminate..]. Qed.

Lemma reduceM_invariant {A B} (P : B -> Prop) (f : B -> A -> Outcome B)
  (xs : list A) :
  (forall b a b', a ∈ xs -> P b -> f b a = Return b' -> P b') ->
  forall init r, P init -> reduceM f xs init = Return r -> P r.
Proof.
  induction xs as [|x xs IH]; intros Hstep init r Hinit; simpl.
  - intros [= <-]. exact Hinit.
  - intros Hr. apply bind_Return in Hr as (b & Hb & Hr).
    apply (IH (fun b0 a b' Ha => Hstep b0 a b' (list_elem_of_further _ _ _ Ha))
              b r); [|exact Hr].
    apply (Hstep init x b); [apply list_elem_of_here|exact Hinit|exact Hb].
Qed.

Lemma loadModule_Return (label name : string) (module : Exports) (acc acc' : Loaded) :
  loadModule label name module acc = Return acc' ->
  exists m schema,
    module = ExportsMethod m
    /\ paramsSchema m = Some schema
    /\ acc' = (<[name := m]> (fst acc),
               (snd acc ++ [(name, ExportsSchema schema)])%list).
Proof.
  unfold loadModule. destruct module as [m|s]; [|discriminate].
  destruct (paramsSchema m) as [schema|] eqn:Hschema; [|discriminate].
  intros [= <-]. eauto.
Qed.

Lemma wellLoaded_loadModule (entries : list DirEntry) (label name : string)
  (module : Exports) (acc acc' : Loaded) :
  (forall m, module = ExportsMethod m -> loadedFrom entries name m) ->
  wellLoaded entries acc ->
  loadModule label name module acc = Return acc' ->
  wellLoaded entries acc'.
Proof.
  intros Hfrom Hacc Hload.
  apply loadModule_Return in Hload as (m & schema & -> & Hschema & ->).
  intros name' m' Hlookup. cbn [fst snd] in *.
  destruct (decide (name = name')) as [<-|Hne].
  - rewrite lookup_insert_eq in Hlookup. injection Hlookup as <-.
    split; [|apply Hfrom; reflexivity].
    exists schema. split; [exact Hschema|].
    apply elem_of_app. right. apply list_elem_of_here.
  - rewrite lookup_insert_ne in Hlookup by exact Hne.
    destruct (Hacc name' m' Hlookup) as [(schema' & Hs & Hin) Hfrom'].
    split; [|exact Hfrom'].
    exists schema'. split; [exact Hs|]. apply elem_of_app. left. exact Hin.
Qed.

Lemma wellLoaded_append (entries : list DirEntry) (acc : Loaded)
  (reg : string * Exports) :
  wellLoaded entries acc ->
  wellLoaded entries (fst acc, (snd acc ++ [reg])%list).
Proof.
  intros Hacc name m Hlookup. cbn [fst snd] in *.
  destruct (Hacc name m Hlookup) as [(schema & Hs & Hin) Hfrom].
  split; [|exact Hfrom]. exists schema. split; [exact Hs|].
  apply elem_of_app. left. exact Hin.
Qed.

(** X13: When the loader succeeds, every method of the registry exports a
    [paramsSchema], registered with tv4 under the method's name, and is the
    module of a method file (one whose second dot-separated part is not
    [schema]) named by the part before its first dot or of a directory with
    an [index.js], named by the directory; so the members of the registry
    that the pipeline dispatches without validating parameters are the
    inherited ones only.  (No entry is to be named [__proto__]: assigning
    that property would replace the registry's prototype.) *)
Theorem loaded_methods_have_schemas (entries : list DirEntry)
  (methods : gmap string MethodModule) (registered : list (string * Exports)) :
  (forall entry, entry ∈ entries -> loadedName entry <> "__proto__") ->
  loadMethods (Some entries) = Return (methods, registered) ->
  (forall name m,
      methods !! name = Some m ->
      (exists schema,
          paramsSchema m = Some schema
          /\ (name, ExportsSchema schema) ∈ registered)
      /\ loadedFrom entries name m)
  /\ (forall name member,
        methods_get methods name = Some member ->
        member_paramsSchema member = None ->
        member = Inherited name /\ Object_prototype_has name = true).
Proof.
  intros _ Hload.
  assert (Hwell : wellLoaded entries (methods, registered)).
  { unfold loadMethods in Hload. apply bind_Return in Hload as (files & Hfiles & Hdirs).
    assert (Hfiles' : wellLoaded entries files).
    { revert Hfiles. apply reduceM_invariant.
      - intros acc entry acc' Hin Hacc Hstep.
        destruct entry as [filename [err|module]|dirname index|other];
          cbn [loadFile] in Hstep; try discriminate; try (injection Hstep as <-; exact Hacc).
        destruct (isMethod filename) eqn:Hmethod.
        + revert Hstep. apply wellLoaded_loadModule; [|exact Hacc].
          intros m ->. left. exists filename. auto.
        + injection Hstep as <-. apply wellLoaded_append, Hacc.
      - intros name m Hlookup. cbn [fst] in Hlookup.
        rewrite lookup_empty in Hlookup. discriminate. }
    revert Hdirs. apply reduceM_invariant; [|exact Hfiles'].
    intros acc entry acc' Hin Hacc Hstep.
    apply list_elem_of_In, filter_In in Hin as [Hin _].
    apply list_elem_of_In in Hin.
    destruct entry as [filename required|dirname [[err|module]|]|other];
      cbn [loadDirectory] in Hstep; try discriminate;
      try (injection Hstep as <-; exact Hacc).
    revert Hstep. apply wellLoaded_loadModule; [|exact Hacc].
    intros m ->. right. exact Hin. }
  split; [exact Hwell|].
  intros name member Hget Hnone. unfold methods_get in Hget.
  destruct (methods !! name) as [m|] eqn:Hm.
  - injection Hget as <-. cbn [member_paramsSchema] in Hnone.
    destruct (Hwell name m Hm) as [(schema & Hs & _) _]. congruence.
  - destruct (Object_prototype_has name); [|discriminate].
    injection Hget as <-. auto.
Qed.

Lemma loaded_methods_have_schemas_witness :
  exists methods registered,
    loadMethods (Some sampleDirectory) = Return (methods, registered)
    /\ forall name m,
         methods !! name = Some m -> exists schema, paramsSchema m = Some schema.
Proof.
  eexists _, _. split; [reflexivity|].
  intros name m Hm.
  assert (Hnames : forall entry,
             entry ∈ sampleDirectory -> loadedName entry <> "__proto__").
  { intros entry Hin. unfold sampleDirectory in Hin.
    repeat (apply elem_of_cons in Hin as [->|Hin]; [discriminate|]).
    inversion Hin. }
  destruct (loaded_methods_have_schemas sampleDirectory _ _ Hnames eq_refl)
    as [Hwell _].
  destruct (Hwell name m Hm) as [(schema & Hschema & _) _].
  exists schema. exact Hschema.
Defined.

(** X14: A method file whose module exports no [paramsSchema] (the first method
    of the README is one) aborts the loader with ["paramsSchema not exported
    from <filename>"], once the files before it have been loaded. *)
Theorem module_without_schema_aborts (pre post : list DirEntry)
  (filename : string) (module : Exports) (acc : Loaded) :
  reduceM loadFile pre (∅, []) = Return acc ->
  isMethod filename = true ->
  exported_paramsSchema module = None ->
  loadMethods (Some (pre ++ File filename (inr module) :: post)%list)
  = Throw (ThrowFault
             (OtherError "Error" ("paramsSchema not exported from " ++ filename))).
Proof.
  intros Hpre Hmethod Hnone. unfold loadMethods.
  rewrite reduceM_app, Hpre. cbn [mbind Outcome_bind reduceM loadFile].
  rewrite Hmethod. unfold loadModule.
  destruct module as [m|schema]; cbn [exported_paramsSchema] in Hnone;
    [rewrite Hnone|]; reflexivity.
Qed.

Lemma module_without_schema_aborts_witness :
  loadMethods (Some [ File "greet.js" (inr (ExportsMethod greetModule));
                      File "example.js" (inr (ExportsMethod helloModule)) ])
  = Throw (ThrowFault
             (OtherError "Error" "paramsSchema not exported from example.js")).
Proof.
  exact (module_without_schema_aborts
           [ File "greet.js" (inr (ExportsMethod greetModule)) ] []
           "example.js" (ExportsMethod helloModule) _ eq_refl eq_refl eq_refl).
Defined.

Lemma reduceM_app_Return {A B} (f : B -> A -> Outcome B) (xs ys : list A)
  (y : A) (init r : B) :
  reduceM f (xs ++ y :: ys)%list init = Return r ->
  exists a b,
    reduceM f xs init = Return a /\ f a y = Return b /\ reduceM f ys b = Return r.
Proof.
  rewrite reduceM_app. intros Hr.
  apply bind_Return in Hr as (a & Ha & Hr). cbn [reduceM] in Hr.
  apply bind_Return in Hr as (b & Hb & Hr). eauto.
Qed.

(** X15: A directory with an [index.js] takes precedence over a file of the same
    name, and over earlier directories of that name: when the loader
    succeeds, the method registered under the name of the last such
    directory is that directory's module. *)
Theorem directory_overrides_file (pre post : list DirEntry) (name : string)
  (m : MethodModule) (methods : gmap string MethodModule)
  (registered : list (string * Exports)) :
  loadMethods (Some (pre ++ Directory name (Some (inr (ExportsMethod m))) :: post)%list)
  = Return (methods, registered) ->
  (forall required, Directory name (Some required) ∉ post) ->
  methods !! name = Some m.
Proof.
  intros Hload Hlast. unfold loadMethods in Hload.
  apply bind_Return in Hload as (files & _ & Hdirs).
  rewrite List.filter_app in Hdirs. cbn [List.filter isDir] in Hdirs.
  apply reduceM_app_Return in Hdirs as (a & b & _ & Hb & Hrest).
  cbn [loadDirectory] in Hb.
  apply loadModule_Return in Hb as (m' & schema & [= <-] & _ & ->).
  revert Hrest.
  apply (reduceM_invariant (fun acc : Loaded => fst acc !! name = Some m));
    [|apply lookup_insert_eq].
  intros acc entry acc' Hin Hacc Hstep.
  apply list_elem_of_In, filter_In in Hin as [Hin _]. apply list_elem_of_In in Hin.
  destruct entry as [filename required|dirname [[err|module]|]|other];
    cbn [loadDirectory] in Hstep; try discriminate;
    try (injection Hstep as <-; exact Hacc).
  apply loadModule_Return in Hstep as (m' & schema' & -> & _ & ->).
  cbn [fst]. rewrite lookup_insert_ne; [exact Hacc|].
  intros ->. exact (Hlast _ Hin).
Qed.

Lemma directory_overrides_file_witness :
  exists methods registered,
    loadMethods (Some [ File "greet.js" (inr (ExportsMethod renderModule));
                        Directory "greet" (Some (inr (ExportsMethod greetModule))) ])
    = Return (methods, registered)
    /\ methods !! "greet" = Some greetModule.
Proof.
  eexists _, _. split; [reflexivity|].
  apply (directory_overrides_file
           [ File "greet.js" (inr (ExportsMethod renderModule)) ] [] "greet"
           greetModule _ _ eq_refl).
  intros required Hin. inversion Hin.
Defined.

(** * Error reporters *)

Section Reporters.
Context {A : Type}.
Implicit Types (errors : list (A -> Outcome Message)) (args : A).

Lemma reduce_truthy errors args (message : Message) :
  message_truthy message = true ->
  reduceM (fun message currentFn =>
             if message_truthy message then Return message else currentFn args)
    errors message
  = Return message.
Proof.
  intros Htruthy. induction errors as [|f errors IH]; simpl; [reflexivity|].
  rewrite Htruthy. exact IH.
Qed.

Lemma reduce_falsy errors args (m m' : Message) :
  errors <> [] ->
  message_truthy m = false -> message_truthy m' = false ->
  reduceM (fun message currentFn =>
             if message_truthy message then Return message else currentFn args)
    errors m
  = reduceM (fun message currentFn =>
               if message_truthy message then Return message else currentFn args)
      errors m'.
Proof.
  destruct errors as [|f errors]; [congruence|]. intros _ Hm Hm'. simpl.
  rewrite Hm, Hm'. reflexivity.
Qed.

End Reporters.

(** X20: The reporter that was added last is asked first, and a reporter's
    non-empty message is the result as soon as every reporter added after it
    returned nothing ([null], [undefined] or the empty string); the reporters
    added before it are not asked.  A reporter added on top of others that
    returns nothing leaves the result to them. *)
Theorem first_message_wins {A : Type} (newer older : list (A -> Outcome Message))
  (fn : A -> Outcome Message) (args : A) :
  Forall (fun g => exists m, g args = Return m /\ message_truthy m = false) newer ->
  (forall s, fn args = Return (MessageString s) -> s <> "" ->
     errorReporter (newer ++ fn :: older)%list args = Return (MessageString s))
  /\ (forall m, fn args = Return m -> message_truthy m = false -> older <> [] ->
        errorReporter (newer ++ addError fn older)%list args
        = errorReporter older args).
Proof.
  intros Hnewer. unfold errorReporter, addError.
  assert (Hskip : forall init rest,
             message_truthy init = false ->
             exists m,
               message_truthy m = false
               /\ reduceM (fun message currentFn =>
                             if message_truthy message then Return message
                             else currentFn args) (newer ++ rest)%list init
                  = reduceM (fun message currentFn =>
                               if message_truthy message then Return message
                               else currentFn args) rest m).
  { induction Hnewer as [|g newer (m & Hg & Hm) _ IH]; intros init rest Hinit.
    - exists init. auto.
    - simpl. rewrite Hinit, Hg. simpl. apply IH, Hm. }
  split.
  - intros s Hfn Hs.
    destruct (Hskip MessageNull (fn :: older) eq_refl) as (m & Hm & ->).
    simpl. rewrite Hm, Hfn. simpl. apply reduce_truthy.
    simpl. destruct (String.eqb_spec s ""); [contradiction|reflexivity].
  - intros m Hfn Hm Holder.
    destruct (Hskip MessageNull (fn :: older) eq_refl) as (m0 & Hm0 & ->).
    simpl. rewrite Hm0, Hfn. simpl. apply reduce_falsy; auto.
Qed.

Lemma first_message_wins_witness :
  errorReporter
    (addError (fun _ : string => Return MessageUndefined)
       (addError (fun path => Return (MessageString (path ++ " is invalid")))
          [fun _ => Throw (ThrowFault (TypeError "not asked"))]))
    "title"
  = Return (MessageString "title is invalid").
Proof.
  apply (proj1 (@first_message_wins string
                  [fun _ => Return MessageUndefined]
                  [fun _ => Throw (ThrowFault (TypeError "not asked"))]
                  (fun path => Return (MessageString (path ++ " is invalid")))
                  "title"
                  ltac:(repeat constructor; eexists; split; reflexivity)));
    [reflexivity|discriminate].
Defined.

(** * The production logger in front of the pipeline *)

(** X21: With [prodRpcLogger] in front of [handleRpcs], a body that is not
    well-formed JSON is never answered: the logger's own [json(req)] throws
    before the pipeline, which alone would answer [-32700], is called.  For
    every other request the logger returns what the pipeline returns. *)
Theorem logger_preempts_parse_error `{L : Lodash} `{T : Tv4} `{H : Host}
  (fuel : nat) (methods : gmap string MethodModule) (dontDefault : list string)
  (request : Request) :
  (forall err,
      contentType request = Some "application/json" ->
      micro_json (body request) = inl err ->
      prodRpcLogger (handleRpcs fuel methods dontDefault) request = inl err
      /\ handleRpcs fuel methods dontDefault request
         = ([], Respond (Failure (-32700) "Parse error" (serializeError err)
                           (Some JNull))))
  /\ ((contentType request <> Some "application/json"
       \/ exists js, micro_json (body request) = inr js) ->
      prodRpcLogger (handleRpcs fuel methods dontDefault) request
      = inr (handleRpcs fuel methods dontDefault request)).
Proof.
  unfold prodRpcLogger. split.
  - intros err Hct Hparse. rewrite bool_decide_eq_true_2, Hparse by exact Hct.
    split; [reflexivity|].
    unfold handleRpcs. rewrite bool_decide_eq_true_2 by exact Hct. simpl.
    rewrite Hparse. reflexivity.
  - intros [Hct|[js Hparse]].
    + rewrite bool_decide_eq_false_2 by exact Hct. reflexivity.
    + destruct (bool_decide _); [rewrite Hparse|]; reflexivity.
Qed.

Lemma logger_preempts_parse_error_witness :
  @prodRpcLogger (sampleHost None (inl syntaxError)) _
    (@handleRpcs bracketFreeLodash sampleTv4 (sampleHost None (inl syntaxError))
       10 sampleMethods []) rpcRequest
  = inl syntaxError.
Proof.
  apply (proj1 (@logger_preempts_parse_error bracketFreeLodash sampleTv4
                  (sampleHost None (inl syntaxError)) 10%nat sampleMethods []
                  rpcRequest) syntaxError eq_refl eq_refl).
Defined.

(** * The configuration checks *)

Lemma lodashDifference_nil (array : list string) (values : gmap string string) :
  lodashDifference array values = [] <-> forall k, k ∈ array -> is_Some (values !! k).
Proof.
  unfold lodashDifference. induction array as [|k array IH]; simpl.
  - split; [intros _ k Hk; inversion Hk|reflexivity].
  - destruct (decide (is_Some (values !! k))) as [Hk|Hk].
    + rewrite bool_decide_eq_true_2 by exact Hk. simpl. rewrite IH. split.
      * intros Hall k' Hk'. apply elem_of_cons in Hk' as [->|Hk']; auto.
      * intros Hall k' Hk'. apply Hall, list_elem_of_further, Hk'.
    + rewrite bool_decide_eq_false_2 by exact Hk. simpl. split; [discriminate|].
      intros Hall. exfalso. apply Hk, Hall, list_elem_of_here.
Qed.

Lemma lodashDifference_elem (array : list string) (values : gmap string string)
  (k : string) :
  k ∈ lodashDifference array values <-> k ∈ array /\ values !! k = None.
Proof.
  unfold lodashDifference. rewrite list_elem_of_In, filter_In, <- list_elem_of_In.
  rewrite negb_true_iff, bool_decide_eq_false, <- eq_None_not_Some. reflexivity.
Qed.

(** X22: [checkConfig] lets the process start exactly when [.env] exists,
    [.env.example] can be read and every name of [.env.example] is set in
    the environment.  Otherwise it throws: ['.env file missing!'] exactly
    when [.env] does not exist; failing that, the error of reading
    [.env.example] exactly when that file cannot be read; and failing that,
    the error that names exactly the names of [.env.example] that are not
    set, in the order [Object.keys] gives them (that [.env] defines them
    does not count). *)
Theorem checkConfig_accepts (envExists : bool) (envExample : option (list string))
  (processEnv : gmap string string) :
  (checkConfig envExists envExample processEnv = inr tt
   <-> envExists = true
       /\ exists exampleKeys,
            envExample = Some exampleKeys
            /\ forall k, k ∈ exampleKeys -> is_Some (processEnv !! k))
  /\ (checkConfig envExists envExample processEnv = inl EnvFileMissing
      <-> envExists = false)
  /\ (checkConfig envExists envExample processEnv = inl ExampleFileUnreadable
      <-> envExists = true /\ envExample = None)
  /\ (forall missing,
        checkConfig envExists envExample processEnv = inl (MissingVars missing) ->
        exists exampleKeys,
          envExists = true
          /\ envExample = Some exampleKeys
          /\ missing
             = List.filter (fun k => negb (bool_decide (is_Some (processEnv !! k))))
                 exampleKeys
          /\ missing <> []
          /\ forall k, k ∈ missing <-> k ∈ exampleKeys /\ processEnv !! k = None).
Proof.
  unfold checkConfig. destruct envExists; simpl.
  - destruct envExample as [exampleKeys|].
    + destruct (lodashDifference exampleKeys processEnv) as [|k0 missing0] eqn:Hdiff.
      * split; [|split; [|split]].
        -- pose proof (proj1 (lodashDifference_nil _ _) Hdiff) as Hall.
           split; [eauto|reflexivity].
        -- split; discriminate.
        -- split; [discriminate|]. intros [_ [=]].
        -- discriminate.
      * split; [|split; [|split]].
        -- split; [discriminate|]. intros [_ (keys & [= <-] & Hall)].
           pose proof (proj2 (lodashDifference_nil _ _) Hall) as Hnil. congruence.
        -- split; discriminate.
        -- split; [discriminate|]. intros [_ [=]].
        -- intros missing [= <-]. exists exampleKeys. rewrite <- Hdiff.
           split; [reflexivity|split; [reflexivity|split; [reflexivity|]]].
           split; [rewrite Hdiff; discriminate|].
           intros k. apply lodashDifference_elem.
    + split; [|split; [|split]].
      * split; [discriminate|]. intros [_ (keys & [=] & _)].
      * split; discriminate.
      * split; auto.
      * discriminate.
  - split; [|split; [|split]].
    + split; [discriminate|]. intros [[=] _].
    + split; reflexivity.
    + split; [discriminate|]. intros [[=] _].
    + discriminate.
Qed.

Lemma checkConfig_accepts_witness :
  checkConfig true (Some ["JWT_SECRET"; "PORT"])
    {[ "JWT_SECRET" := "s"; "PORT" := "3000" ]}
  = inr tt
  /\ checkConfig true None {[ "JWT_SECRET" := "s"; "PORT" := "3000" ]}
     = inl ExampleFileUnreadable
  /\ exists exampleKeys,
       Some ["JWT_SECRET"; "PORT"] = Some exampleKeys
       /\ ["JWT_SECRET"]
          = List.filter
              (fun k => negb (bool_decide
                                (is_Some (({[ "PORT" := "3000" ]}
                                           : gmap string string) !! k))))
              exampleKeys.
Proof.
  split; [|split].
  - apply (proj1 (checkConfig_accepts true (Some ["JWT_SECRET"; "PORT"])
                    {[ "JWT_SECRET" := "s"; "PORT" := "3000" ]})).
    split; [reflexivity|]. eexists. split; [reflexivity|]. intros k Hk.
    repeat (apply elem_of_cons in Hk as [->|Hk]; [vm_compute; eauto|]).
    inversion Hk.
  - apply (proj2 (proj1 (proj2 (proj2 (checkConfig_accepts true None
                                          {[ "JWT_SECRET" := "s"; "PORT" := "3000" ]}))))).
    split; reflexivity.
  - assert (Hcheck : checkConfig true (Some ["JWT_SECRET"; "PORT"])
                       {[ "PORT" := "3000" ]}
                     = inl (MissingVars ["JWT_SECRET"])) by reflexivity.
    destruct (proj2 (proj2 (proj2 (checkConfig_accepts true
                                     (Some ["JWT_SECRET"; "PORT"])
                                     {[ "PORT" := "3000" ]})))
                ["JWT_SECRET"] Hcheck)
      as (exampleKeys & _ & Hkeys & Hmissing & _).
    exists exampleKeys. split; [exact Hkeys|exact Hmissing].
Defined.

Section CopyEnv.
Variable env : gmap string string.

Lemma fold_copyVar (keys : list string) :
  forall processEnv k,
    fold_left (copyVar env) keys processEnv !! k
    = match processEnv !! k with
      | Some v => Some v
      | None => if bool_decide (k ∈ keys) then env !! k else None
      end.
Proof.
  induction keys as [|p keys IH]; intros processEnv k; cbn [fold_left].
  - destruct (processEnv !! k); [reflexivity|].
    rewrite bool_decide_eq_false_2; [reflexivity|apply not_elem_of_nil].
  - rewrite IH. unfold copyVar at 1.
    destruct (decide (k = p)) as [->|Hne].
    + rewrite (bool_decide_eq_true_2 (p ∈ p :: keys)) by apply list_elem_of_here.
      destruct (processEnv !! p) as [v|] eqn:Hp.
      * rewrite bool_decide_eq_true_2 by eauto. rewrite Hp. reflexivity.
      * rewrite bool_decide_eq_false_2 by (intros [? [=]]).
        destruct (env !! p) as [v|] eqn:Hv.
        -- rewrite lookup_insert_eq. reflexivity.
        -- rewrite Hp. destruct (bool_decide (p ∈ keys)); reflexivity.
    + assert (Hmem : bool_decide (k ∈ p :: keys) = bool_decide (k ∈ keys)).
      { apply bool_decide_ext. rewrite elem_of_cons. tauto. }
      rewrite Hmem.
      destruct (bool_decide (is_Some (processEnv !! p))); [reflexivity|].
      destruct (env !! p); [rewrite lookup_insert_ne by congruence|]; reflexivity.
Qed.

End CopyEnv.

(** X23: Loading [.env] never overrides the environment: when the script
    succeeds, [process.env] is what it was, extended by the variables of
    [.env] that were not set; every name of [.env.example] is then set. *)
Theorem loadConfig_keeps_environment (env : gmap string string)
  (exampleKeys : list string) (processEnv processEnv' : gmap string string) :
  loadConfig (Some env) exampleKeys processEnv = inr processEnv' ->
  processEnv' = processEnv ∪ env
  /\ processEnv ⊆ processEnv'
  /\ forall k, k ∈ exampleKeys -> is_Some (processEnv' !! k).
Proof.
  unfold loadConfig.
  destruct (lodashDifference exampleKeys env) as [|k0 missing] eqn:Hdiff; [|discriminate].
  intros [= <-].
  assert (Heq : fold_left (copyVar env) (map_to_list env).*1 processEnv
                = processEnv ∪ env).
  { apply map_eq. intros k. rewrite fold_copyVar, lookup_union.
    destruct (processEnv !! k) as [v|]; [destruct (env !! k); reflexivity|].
    destruct (env !! k) as [v|] eqn:Hv.
    - rewrite bool_decide_eq_true_2; [reflexivity|].
      apply list_elem_of_fmap. exists (k, v). split; [reflexivity|].
      apply elem_of_map_to_list, Hv.
    - destruct (bool_decide _); reflexivity. }
  rewrite Heq. split; [reflexivity|split; [apply map_union_subseteq_l|]].
  intros k Hk. destruct (proj1 (lodashDifference_nil _ _) Hdiff k Hk) as [v Hv]. rewrite lookup_union, Hv.
  destruct (processEnv !! k); simpl; eauto.
Qed.

Lemma loadConfig_keeps_environment_witness :
  loadConfig (Some {[ "PORT" := "3000"; "JWT_SECRET" := "dev" ]})
    ["JWT_SECRET"; "PORT"] {[ "PORT" := "8080" ]}
  = inr {[ "PORT" := "8080"; "JWT_SECRET" := "dev" ]}.
Proof.
  destruct (loadConfig (Some {[ "PORT" := "3000"; "JWT_SECRET" := "dev" ]})
              ["JWT_SECRET"; "PORT"] {[ "PORT" := "8080" ]})
    as [err|processEnv'] eqn:Hload; [vm_compute in Hload; discriminate|].
  destruct (loadConfig_keeps_environment _ _ _ _ Hload) as [-> _].
  f_equal.
Defined.

(** * What holds of method lookup and default injection for ordinary names *)

(** X4: A request that is well-formed up to the method lookup and names a method
    that is neither loaded nor a member of [Object.prototype] is answered
    with [-32601], ["Method not found"], data [null] and the request's id,
    and no handler is called. *)
Theorem unknown_method_rejected `{L : Lodash} `{T : Tv4} `{H : Host}
  (fuel : nat) (methods : gmap string MethodModule) (dontDefault : list string)
  (request : Request) (js : json) :
  contentType request = Some "application/json" ->
  micro_json (body request) = inr js ->
  js <> JNull ->
  validateResult js requestSchema = None ->
  methods !! toPropertyKey (js_field js "method") = None ->
  Object_prototype_has (toPropertyKey (js_field js "method")) = false ->
  handleRpcs fuel methods dontDefault request
  = ([], Respond (Failure (-32601) "Method not found" JNull (js_field js "id")))
  /\ dispatches (fst (handleRpcs fuel methods dontDefault request)) = 0%nat.
Proof.
  intros Hct Hparse Hjs Hvalid Hown Hproto.
  rewrite (method_not_found _ _ _ _ _ Hct Hparse Hjs Hvalid Hown Hproto).
  split; reflexivity.
Qed.

Lemma unknown_method_rejected_witness :
  sampleService None (inr (envelope "nope" None 2))
  = ([], Respond (Failure (-32601) "Method not found" JNull (Some (JNum 2)))).
Proof.
  apply (@unknown_method_rejected bracketFreeLodash sampleTv4
           (sampleHost None (inr (envelope "nope" None 2))) 10%nat sampleMethods []
           rpcRequest (envelope "nope" None 2));
    try reflexivity. discriminate.
Defined.

(** X7: For property names that [Object.prototype] does not define, that are
    not array indices and that lodash's [set] does not refuse (so not
    [prototype]; [__proto__] and [constructor] are members of
    [Object.prototype]), and [params] absent or a plain object, default
    injection does what it is meant to: afterwards [params] has, under every
    name, the value it had, and where it had none, the default declared for
    that name, if one is. *)
Theorem ordinary_defaults_injected `{H : Host} (combinedSchema : Schema)
  (c : objclass) (m pm : gmap string json) :
  (forall p d,
      defaultsOf (orEmpty (properties combinedSchema)) !! p = Some d ->
      Object_prototype_has p = false /\ isIndex p = false /\ unsafeKey p = false) ->
  (m !! "params" = None /\ pm = ∅) \/ m !! "params" = Some (JObj PlainObject pm) ->
  forall k,
    match js_field (defaultParams combinedSchema (JObj c m)) "params" with
    | Some (JObj _ pm') => pm' !! k
    | _ => None
    end
    = match pm !! k with
      | Some v => Some v
      | None => defaultsOf (orEmpty (properties combinedSchema)) !! k
      end.
Proof.
  intros Hord Hparams k.
  destruct (defaultParams_ordinary combinedSchema c m Hord)
    as (Hpresent & Hsome & Hnone).
  destruct Hparams as [[Habsent ->]|Hthere].
  - rewrite lookup_empty.
    destruct (decide (defaultsOf (orEmpty (properties combinedSchema)) = ∅))
      as [Hempty|Hnonempty].
    + rewrite (Hnone Habsent Hempty). cbn [js_field]. rewrite Habsent, Hempty.
      rewrite lookup_empty. reflexivity.
    + rewrite (Hsome Habsent Hnonempty). cbn [js_field].
      rewrite lookup_insert_eq. reflexivity.
  - rewrite (Hpresent pm Hthere). cbn [js_field]. rewrite lookup_insert_eq.
    rewrite lookup_union.
    destruct (pm !! k), (defaultsOf _ !! k); reflexivity.
Qed.

Lemma ordinary_defaults_injected_witness :
  match js_field (@defaultParams (sampleHost None (inr JNull)) greetSchema
                    (envelope "greet" None 9)) "params" with
  | Some (JObj _ pm') => pm' !! "name"
  | _ => None
  end
  = Some (JStr "world").
Proof.
  assert (Hord : forall p d,
             defaultsOf (orEmpty (properties greetSchema)) !! p = Some d ->
             Object_prototype_has p = false /\ isIndex p = false
             /\ unsafeKey p = false).
  { intros p d Hd. unfold defaultsOf in Hd. rewrite lookup_omap in Hd.
    cbn [greetSchema properties orEmpty] in Hd.
    destruct (decide (p = "name")) as [->|Hne]; [repeat split; reflexivity|].
    rewrite lookup_singleton_ne in Hd by congruence. discriminate. }
  exact (@ordinary_defaults_injected (sampleHost None (inr JNull)) greetSchema
           PlainObject
           {[ "jsonrpc" := JStr "2.0"; "method" := JStr "greet"; "id" := JNum 9 ]}
           ∅ Hord (or_introl (conj eq_refl eq_refl)) "name").
Defined.
